(** * Typhoon ASR API: model cache and request orchestration

    A shallow embedding of [src/main.py]: the lazily filled model cache
    ([get_or_load_model]), the single-file endpoint ([transcribe_audio]) and
    the batch endpoint ([transcribe_batch]), together with the properties of
    the specification that concern them.

    The collaborators of the service (torch, the transformers pipeline, the
    upload object, the temporary-file layer and the operating system) are not
    part of the repository.  They are gathered in a record [World] of oracles;
    every theorem quantifies over all worlds. *)

From stdpp Require Import gmap strings list fin_maps.
From Stdlib Require Import ZArith Ascii String.

Set Warnings "-register-all".
Local Open Scope string_scope.

(** ** Results and the state-and-exception monad *)

(** The result of running a piece of Python: a value, or a raised
    exception. *)
Inductive result (E A : Type) : Type :=
| Ok (a : A)
| Raise (e : E).
Arguments Ok {E A} a.
Arguments Raise {E A} e.

Definition is_ok {E A : Type} (r : result E A) : bool :=
match r with Ok _ => true | Raise _ => false end.

(** A computation over a store [Σ] that may raise an [E]. *)
Definition M (E Σ A : Type) : Type := Σ → result E A * Σ.

Section Monad.
Context {E Σ : Type}.

Definition ret {A : Type} (a : A) : M E Σ A := λ s, (Ok a, s).

Definition raise {A : Type} (e : E) : M E Σ A := λ s, (Raise e, s).

Definition bind {A B : Type} (m : M E Σ A) (k : A → M E Σ B) : M E Σ B :=
λ s, match m s with
     | (Ok a, s1) => k a s1
     | (Raise e, s1) => (Raise e, s1)
     end.

Definition gets {A : Type} (f : Σ → A) : M E Σ A := λ s, (Ok (f s), s).

Definition modify (f : Σ → Σ) : M E Σ () := λ s, (Ok (), f s).

(** [try: body finally: fin].  The clause [fin] runs on both exits of
    [body]; an exception raised by [fin] replaces the outcome of [body]. *)
Definition try_finally {A : Type} (body : M E Σ A) (fin : M E Σ ()) : M E Σ A :=
λ s, match body s with
     | (r, s1) =>
         match fin s1 with
         | (Ok _, s2) => (r, s2)
         | (Raise e, s2) => (Raise e, s2)
         end
     end.

(** [for x in xs: body x] *)
Fixpoint for_each {A : Type} (xs : list A) (body : A → M E Σ ()) : M E Σ () :=
match xs with
| [] => ret ()
| x :: xs' => bind (body x) (λ _, for_each xs' body)
end.

End Monad.

(** [try: body except Exception as e: handler e].  The handler may raise
    exceptions of another kind than the body. *)
Definition try_except {E E' Σ A : Type}
  (body : M E Σ A) (handler : E → M E' Σ A) : M E' Σ A :=
λ s, match body s with
     | (Ok a, s1) => (Ok a, s1)
     | (Raise e, s1) => handler e s1
     end.

(** A function body with local variables [L] over the global store [G]:
    [lift] runs a computation on the globals, [with_locals] is the call,
    which starts from the initial locals and drops them on return. *)
Definition lift {E G L A : Type} (m : M E G A) : M E (G * L) A :=
λ s, match m s.1 with (r, g) => (r, (g, s.2)) end.

Definition with_locals {E G L A : Type} (init : L) (m : M E (G * L) A) : M E G A :=
λ g, match m (g, init) with (r, s) => (r, s.1) end.

Declare Scope py_scope.
Delimit Scope py_scope with py.
Notation "x ← m ; k" := (bind m (λ x, k))
  (at level 20, m at level 100, k at level 200, only parsing) : py_scope.
Notation "m ;; k" := (bind m (λ _, k))
  (at level 100, k at level 200, only parsing, right associativity) : py_scope.
Local Open Scope py_scope.

(** ** Python values *)

Module Py.

(** What the endpoints can observe of a Python object: whether it is a
    [str], whether it is a [dict] (and then its items), or anything else.
    Objects of the third kind are told apart by a tag only. *)
Inductive value : Type :=
| Str (s : string)
| Dict (items : gmap string value)
| Object (tag : nat).

(** [d.get(key, default)] *)
Definition dict_get (d : gmap string value) (key : string) (default : value) : value :=
  match d !! key with
  | Some v => v
  | None => default
  end.

(** [s.lower()], on the ASCII letters.  [str.lower] maps no character
    outside ASCII to one of [.], [w], [a], [v], so the test
    [s.lower().endswith('.wav')] is not affected by the restriction. *)
Definition lower_ascii (c : ascii) : ascii :=
  let n := nat_of_ascii c in
  if (65 <=? n)%nat && (n <=? 90)%nat then ascii_of_nat (n + 32) else c.

Fixpoint lower (s : string) : string :=
  match s with
  | EmptyString => EmptyString
  | String c s' => String (lower_ascii c) (lower s')
  end.

(** [s.endswith(suffix)]: some tail of [s] is [suffix]. *)
Fixpoint endswith (s suffix : string) : bool :=
  if String.eqb s suffix then true
  else match s with
       | EmptyString => false
       | String _ s' => endswith s' suffix
       end.

End Py.

(** ** The model registry *)

(** [class ASRModel(str, Enum)] *)
Inductive ASRModel : Type :=
| TYPHOON_ISAN_WHISPER
| MONSOON_WHISPER_MEDIUM.

Global Instance ASRModel_eq_dec : EqDecision ASRModel.
Proof. solve_decision. Defined.

Global Instance ASRModel_countable : Countable ASRModel.
Proof.
  refine (inj_countable'
            (λ m, match m with TYPHOON_ISAN_WHISPER => false | MONSOON_WHISPER_MEDIUM => true end)
            (λ b : bool, if b then MONSOON_WHISPER_MEDIUM else TYPHOON_ISAN_WHISPER) _).
  by intros [].
Defined.

(** [model.value] *)
Definition value (m : ASRModel) : string :=
match m with
| TYPHOON_ISAN_WHISPER => "typhoon-isan-asr-whisper"
| MONSOON_WHISPER_MEDIUM => "monsoon-whisper-medium-gigaspeech2"
end.

Record ModelDescriptor : Type := {
  repo : string;
  description : string;
  language : string
}.

Definition MODEL_CONFIG (m : ASRModel) : ModelDescriptor :=
match m with
| TYPHOON_ISAN_WHISPER =>
    {| repo := "scb10x/typhoon-isan-asr-whisper";
       description := "Whisper model optimized for Isan dialect (highest accuracy, CER: 8.85%)";
       language := "th-isan" |}
| MONSOON_WHISPER_MEDIUM =>
    {| repo := "scb10x/monsoon-whisper-medium-gigaspeech2";
       description := "Whisper model for standard Thai language (0.8B parameters)";
       language := "th" |}
end.

(** ** The collaborators *)

Inductive dtype : Type := float16 | float32.

(** The arguments of the call [pipeline(...)] in [get_or_load_model]. *)
Record pipeline_args : Type := {
  task : string;
  model : string;
  device : Z;
  torch_dtype : dtype;
  chunk_length_s : Z;
  return_timestamps : bool
}.

(** A constructed pipeline.  Two handles are the same object when they come
    from the same call of [pipeline]: [handle_id] is the time of that call. *)
Record Handle : Type := {
  handle_id : nat;
  handle_args : pipeline_args
}.

Definition bytes : Type := list Byte.byte.

(** A temporary file is named by the time of its creation, which makes the
    name unique and independent of the uploaded file's name. *)
Definition path : Type := nat.

(** An uploaded file: its name and what [await file.read()] does. *)
Record UploadFile : Type := {
  filename : string;
  read : result string bytes
}.

(** Calls into the collaborators, in the order they happen. *)
Inductive Event : Type :=
| CudaIsAvailable (b : bool)
| Pipeline (args : pipeline_args) (constructed : bool)
| FileRead (name : string) (ok : bool)
| NamedTemporaryFile (p : path) (created : bool)
| FileWrite (p : path) (ok : bool)
| FileClose (p : path) (ok : bool)
| ModelCall (h : Handle) (p : path) (ok : bool)
| PathExists (p : path) (b : bool)
| Unlink (p : path) (ok : bool).

(** Everything the collaborators decide.  The first argument of an oracle is
    the time of the call (the number of earlier calls), so that the same
    call may go differently at different times.  An exception [e] raised by
    a collaborator is represented by [str(e)], the only thing the service
    uses of it. *)
Record World : Type := {
  (** [torch.cuda.is_available()] *)
  cuda_is_available : nat → bool;
  (** whether [pipeline(...)] constructs a handle or raises *)
  pipeline_outcome : nat → pipeline_args → result string ();
  (** [asr_model(temp_file_path)] *)
  model_outcome : nat → Handle → path → bytes → result string Py.value;
  (** [str(result)] *)
  str : Py.value → string;
  (** [tempfile.NamedTemporaryFile(delete=False, suffix='.wav')] *)
  tempfile_outcome : nat → result string ();
  (** [temp_file.write(content)] *)
  write_outcome : nat → path → bytes → result string ();
  (** closing the temporary file at the exit of the [with] block *)
  close_outcome : nat → path → result string ();
  (** [os.unlink(temp_file_path)] *)
  unlink_outcome : nat → path → result string ();
  (** [transcription_text[:100]] and the validation of the field
      [text: str] of [TranscriptionResponse], for a text that is not a
      [str]: the text the response gets, or the exception raised *)
  response_text_outcome : Py.value → result string string
}.

(** ** The state of the process *)

Record State : Type := {
  (** the global [loaded_models] *)
  loaded_models : gmap ASRModel Handle;
  (** the temporary files on storage, with their content *)
  storage : gmap path bytes;
  (** the calls made so far, the latest first *)
  trace : list Event
}.

Definition initial : State :=
  {| loaded_models := ∅; storage := ∅; trace := [] |}.

Definition set_loaded_models (f : gmap ASRModel Handle → gmap ASRModel Handle) (s : State) : State :=
  {| loaded_models := f (loaded_models s); storage := storage s; trace := trace s |}.

Definition set_storage (f : gmap path bytes → gmap path bytes) (s : State) : State :=
  {| loaded_models := loaded_models s; storage := f (storage s); trace := trace s |}.

Definition emit {E : Type} (e : Event) : M E State () :=
  modify (λ s, {| loaded_models := loaded_models s; storage := storage s; trace := e :: trace s |}).

Definition now {E : Type} : M E State nat := gets (λ s, List.length (trace s)).

(** A collaborator's answer enters the computation. *)
Definition outcome {E Σ A : Type} (r : result E A) : M E Σ A := λ s, (r, s).

Section Collaborators.
Context (W : World).

Definition torch_cuda_is_available {E : Type} : M E State bool :=
  t ← now;
  let b := cuda_is_available W t in
  emit (CudaIsAvailable b);;
  ret b.

Definition pipeline (args : pipeline_args) : M string State Handle :=
  t ← now;
  let r := pipeline_outcome W t args in
  emit (Pipeline args (is_ok r));;
  outcome r;;
  ret {| handle_id := t; handle_args := args |}.

Definition file_read (file : UploadFile) : M string State bytes :=
  emit (FileRead (filename file) (is_ok (read file)));;
  outcome (read file).

Definition tempfile_NamedTemporaryFile : M string State path :=
  t ← now;
  let r := tempfile_outcome W t in
  emit (NamedTemporaryFile t (is_ok r));;
  outcome r;;
  modify (set_storage (insert t []));;
  ret t.

Definition file_write (p : path) (content : bytes) : M string State () :=
  t ← now;
  let r := write_outcome W t p content in
  emit (FileWrite p (is_ok r));;
  outcome r;;
  modify (set_storage (insert p content)).

Definition file_close (p : path) : M string State () :=
  t ← now;
  let r := close_outcome W t p in
  emit (FileClose p (is_ok r));;
  outcome r.

Definition call (asr_model : Handle) (p : path) : M string State Py.value :=
  t ← now;
  content ← gets (λ s, default [] (storage s !! p));
  let r := model_outcome W t asr_model p content in
  emit (ModelCall asr_model p (is_ok r));;
  outcome r.

Definition os_path_exists {E : Type} (p : path) : M E State bool :=
  b ← gets (λ s, bool_decide (is_Some (storage s !! p)));
  emit (PathExists p b);;
  ret b.

Definition os_unlink (p : path) : M string State () :=
  t ← now;
  let r := unlink_outcome W t p in
  emit (Unlink p (is_ok r));;
  outcome r;;
  modify (set_storage (delete p)).

End Collaborators.

(** ** The service *)

(** The exceptions that leave a function of the service. *)
Inductive Exn : Type :=
| HTTPException (status_code : Z) (detail : string)
| KeyError (key : string)
| UnboundLocalError (name : string).

Record TranscriptionResponse : Type := {
  response_text : string;
  response_model : string;
  response_language : option string;
  response_status : string
}.

(** The value returned by [transcribe_batch].  An element of [results] is
    the Python [dict] the loop appended. *)
Record BatchReport : Type := {
  results : list (gmap string Py.value);
  total : nat;
  report_model : string;
  report_status : string
}.

(** The local variables of [transcribe_audio] that its [finally] clause
    reads.  [temp_file] starts as Python's [None]; [temp_file_path] is not
    bound until its assignment. *)
Record AudioLocals : Type := {
  temp_file : option path;
  temp_file_path : option path
}.

Section Service.
Context (W : World).

(** The arguments [get_or_load_model] passes to [pipeline]. *)
Definition load_args (cuda : bool) (model_name : ASRModel) : pipeline_args :=
  let device := if cuda then "cuda" else "cpu" in
  let model_repo := repo (MODEL_CONFIG model_name) in
  {| task := "automatic-speech-recognition";
     model := model_repo;
     device := if String.eqb device "cuda" then 0%Z else (-1)%Z;
     torch_dtype := if String.eqb device "cuda" then float16 else float32;
     chunk_length_s := 30%Z;
     return_timestamps := true |}.

Definition get_or_load_model (model_name : ASRModel) : M Exn State Handle :=
  cached ← gets (λ s, loaded_models s !! model_name);
  (if bool_decide (cached = None) then
     try_except
       (cuda ← torch_cuda_is_available W;
        h ← pipeline W (load_args cuda model_name);
        modify (set_loaded_models (insert model_name h)))
       (λ e, raise (HTTPException 500 ("Failed to load model: " ++ e)))
   else ret ());;
  cached ← gets (λ s, loaded_models s !! model_name);
  match cached with
  | Some h => ret h
  | None => raise (KeyError (value model_name))
  end.

(** The three branches that turn an engine result into the transcription
    text; the same lines occur in both endpoints. *)
Definition extract_text (result : Py.value) : Py.value :=
  match result with
  | Py.Dict d => Py.dict_get d "text" (Py.Str "")
  | Py.Str s => Py.Str s
  | other => Py.Str (str W other)
  end.

(** The text field of a [TranscriptionResponse] built from
    [transcription_text]. *)
Definition checked_text (transcription_text : Py.value) : result string string :=
  match transcription_text with
  | Py.Str s => Ok s
  | other => response_text_outcome W other
  end.

Definition is_wav (file : UploadFile) : bool :=
  Py.endswith (Py.lower (filename file)) ".wav".

Definition set_temp_file {E : Type} (v : option path) : M E (State * AudioLocals) () :=
  modify (λ s, (s.1, {| temp_file := v; temp_file_path := temp_file_path s.2 |})).

Definition set_temp_file_path {E : Type} (v : option path) : M E (State * AudioLocals) () :=
  modify (λ s, (s.1, {| temp_file := temp_file s.2; temp_file_path := v |})).

(** The [finally] clause of [transcribe_audio]. *)
Definition cleanup : M Exn (State * AudioLocals) () :=
  tf ← gets (λ s, temp_file s.2);
  match tf with
  | None => ret ()
  | Some _ =>
      tp ← gets (λ s, temp_file_path s.2);
      match tp with
      | None => raise (UnboundLocalError "temp_file_path")
      | Some p =>
          present ← lift (os_path_exists p);
          if present then try_except (lift (os_unlink W p)) (λ _, ret ())
          else ret ()
      end
  end.

Definition transcribe_audio (file : UploadFile) (model : ASRModel)
  : M Exn State TranscriptionResponse :=
  if negb (is_wav file) then
    raise (HTTPException 400 "Only WAV files are supported. Please upload a .wav file.")
  else
    asr_model ← get_or_load_model model;
    with_locals {| temp_file := None; temp_file_path := None |}
      (try_finally
         (try_except
            (content ← lift (file_read file);
             p ← lift (tempfile_NamedTemporaryFile W);
             set_temp_file (Some p);;
             try_finally
               (lift (file_write W p content);;
                set_temp_file_path (Some p))
               (lift (file_close W p));;
             result ← lift (call W asr_model p);
             let transcription_text := extract_text result in
             text ← outcome (checked_text transcription_text);
             ret {| response_text := text;
                    response_model := value model;
                    response_language := Some (language (MODEL_CONFIG model));
                    response_status := "success" |})
            (λ e, raise (HTTPException 500 ("Failed to transcribe audio: " ++ e))))
         cleanup).

Definition append {E G A : Type} (x : A) : M E (G * list A) () :=
  modify (λ s, (s.1, (s.2 ++ [x])%list)).

Definition error_entry (name message : string) : gmap string Py.value :=
  {[ "filename" := Py.Str name;
     "status" := Py.Str "error";
     "message" := Py.Str message ]}.

Definition success_entry (name : string) (text : Py.value) (model : ASRModel)
  : gmap string Py.value :=
  {[ "filename" := Py.Str name;
     "text" := text;
     "model" := Py.Str (value model);
     "language" := Py.Str (language (MODEL_CONFIG model));
     "status" := Py.Str "success" ]}.

(** One iteration of the loop of [transcribe_batch]. *)
Definition batch_item (asr_model : Handle) (model : ASRModel) (file : UploadFile)
  : M Exn (State * list (gmap string Py.value)) () :=
  try_except
    (if negb (is_wav file) then
       append (error_entry (filename file) "Only WAV files are supported")
     else
       content ← lift (file_read file);
       p ← lift (tempfile_NamedTemporaryFile W);
       try_finally (lift (file_write W p content)) (lift (file_close W p));;
       result ← lift (call W asr_model p);
       let transcription_text := extract_text result in
       append (success_entry (filename file) transcription_text model);;
       lift (os_unlink W p))
    (λ e, append (error_entry (filename file) e)).

Definition transcribe_batch (files : list UploadFile) (model : ASRModel)
  : M Exn State BatchReport :=
  asr_model ← get_or_load_model model;
  with_locals []
    (for_each files (batch_item asr_model model);;
     results ← gets snd;
     ret {| results := results;
            total := List.length files;
            report_model := value model;
            report_status := "completed" |}).

End Service.

(** ** Observations on states and traces *)

(** The time of the call of [pipeline] when [get_or_load_model] starts in
    [s] (the query for the accelerator comes first), and the answer to that
    query. *)
Definition load_time (s : State) : nat := S (List.length (trace s)).

Definition load_cuda (W : World) (s : State) : bool :=
  cuda_is_available W (List.length (trace s)).

Definition count (f : Event → bool) (t : list Event) : nat :=
  List.length (List.filter f t).
Global Arguments count : simpl never.

(** A call of the engine's build operation. *)
Definition is_pipeline (e : Event) : bool :=
  match e with Pipeline _ _ => true | _ => false end.

(** A call of the build operation that constructed a handle for [m]. *)
Definition constructs (m : ASRModel) (e : Event) : bool :=
  match e with
  | Pipeline args true => String.eqb (model args) (repo (MODEL_CONFIG m))
  | _ => false
  end.

(** A call that creates or fills a temporary file. *)
Definition is_staging (e : Event) : bool :=
  match e with
  | NamedTemporaryFile _ _ | FileWrite _ _ | FileClose _ _ => true
  | _ => false
  end.

(** A call of [os.unlink] on [p]. *)
Definition is_unlink (p : path) (e : Event) : bool :=
  match e with Unlink q _ => Nat.eqb p q | _ => false end.

(** One request served, or one direct call of [get_or_load_model].  The
    endpoints [root] and [list_models] only read the state. *)
Inductive step (W : World) (s : State) : State → Prop :=
| step_get_or_load_model (m : ASRModel) :
    step W s (get_or_load_model W m s).2
| step_transcribe_audio (file : UploadFile) (m : ASRModel) :
    step W s (transcribe_audio W file m s).2
| step_transcribe_batch (files : list UploadFile) (m : ASRModel) :
    step W s (transcribe_batch W files m s).2.

Definition reachable (W : World) (s : State) : Prop := rtc (step W) initial s.

(** The cache holds at most one instance per identifier: over the whole
    history, the build operation constructed exactly one handle for each
    identifier that has an entry, which is the entry, and none for the
    others. *)
Definition single_instance (s : State) : Prop :=
  ∀ m : ASRModel,
    match loaded_models s !! m with
    | Some h =>
        count (constructs m) (trace s) = 1 ∧
        In (Pipeline (handle_args h) true) (trace s) ∧
        model (handle_args h) = repo (MODEL_CONFIG m)
    | None => count (constructs m) (trace s) = 0
    end.

(** A computation never leaves the relation [R]. *)
Definition stable {E Σ A : Type} (R : relation Σ) (m : M E Σ A) : Prop :=
  ∀ s, R s (m s).2.

Definition on_globals {G L : Type} (R : relation G) : relation (G * L) :=
  λ s s', R s.1 s'.1.

(** The cache is untouched and the build operation is not called. *)
Definition quiet (s s' : State) : Prop :=
  loaded_models s' = loaded_models s ∧
  ∃ evs, trace s' = (evs ++ trace s)%list ∧ count is_pipeline evs = 0.

(** Entries of the cache are never removed or replaced. *)
Definition cache_grows (s s' : State) : Prop :=
  loaded_models s ⊆ loaded_models s'.

Definition keeps_single_instance (s s' : State) : Prop :=
  single_instance s → single_instance s'.

(** Entries of the batch report. *)
Definition entry_of (file : UploadFile) (e : gmap string Py.value) : Prop :=
  e !! "filename" = Some (Py.Str (filename file)).

Definition is_failure (e : gmap string Py.value) : Prop :=
  e !! "status" = Some (Py.Str "error").

Definition failure_shape (e : gmap string Py.value) : Prop :=
  is_failure e → (∃ msg, e !! "message" = Some (Py.Str msg)) ∧ e !! "text" = None.

(** What one upload contributes to the report: at least one entry, all
    tagged with its name, the failures among them well shaped. *)
Definition outcome_of (file : UploadFile) (g : list (gmap string Py.value)) : Prop :=
  g ≠ [] ∧ Forall (entry_of file) g ∧ Forall failure_shape g.

(** Assumptions on a world that single out the path on which everything
    but the engine's answer goes well. *)
Definition staging_succeeds (W : World) : Prop :=
  (∀ t, tempfile_outcome W t = Ok ()) ∧
  (∀ t p content, write_outcome W t p content = Ok ()) ∧
  (∀ t p, close_outcome W t p = Ok ()).

Definition engine_answers (W : World) (v : Py.value) : Prop :=
  ∀ t h p content, model_outcome W t h p content = Ok v.

Definition unlink_succeeds (W : World) : Prop :=
  ∀ t p, unlink_outcome W t p = Ok ().

(** What one iteration of the batch loop appends for [file]. *)
Definition item_summary (W : World) (m : ASRModel) (file : UploadFile)
    (g : list (gmap string Py.value)) : Prop :=
  outcome_of file g ∧
  (unlink_succeeds W → ∃ e, g = [e]) ∧
  (∀ content v,
     is_wav file = true → read file = Ok content →
     staging_succeeds W → engine_answers W v →
     head g = Some (success_entry (filename file) (extract_text W v) m)).

(** The response of [transcribe_audio] for a transcription [text]. *)
Definition response (m : ASRModel) (text : string) : TranscriptionResponse :=
  {| response_text := text;
     response_model := value m;
     response_language := Some (language (MODEL_CONFIG m));
     response_status := "success" |}.

Definition invalid_entry (file : UploadFile) : gmap string Py.value :=
  error_entry (filename file) "Only WAV files are supported".

(** ** The listing endpoint *)

(** One element of the list [list_models] returns. *)
Record ModelInfo : Type := {
  info_name : string;
  info_repo : string;
  info_description : string;
  info_language : string;
  info_loaded : bool
}.

(** The members of [ASRModel], in the order of their definition, which is
    the order of [for model_enum in ASRModel]. *)
Definition ASRModel_members : list ASRModel :=
  [TYPHOON_ISAN_WHISPER; MONSOON_WHISPER_MEDIUM].

(** [list_models] returns a dict with the single item [models]; the model
    returns that item. *)
Definition list_models : M Exn State (list ModelInfo) :=
  with_locals []
    (for_each ASRModel_members
       (λ model_enum,
          let config := MODEL_CONFIG model_enum in
          loaded ← gets (λ s, bool_decide (is_Some (loaded_models s.1 !! model_enum)));
          append {| info_name := value model_enum;
                    info_repo := repo config;
                    info_description := description config;
                    info_language := language config;
                    info_loaded := loaded |});;
     gets snd).

(** The element [list_models] builds for [m] in the state [s]. *)
Definition model_info (s : State) (m : ASRModel) : ModelInfo :=
  {| info_name := value m;
     info_repo := repo (MODEL_CONFIG m);
     info_description := description (MODEL_CONFIG m);
     info_language := language (MODEL_CONFIG m);
     info_loaded := bool_decide (is_Some (loaded_models s !! m)) |}.

(** ** Further observations *)

(** Two worlds that differ at most in what [os.unlink] does. *)
Definition agree_up_to_unlink (W W' : World) : Prop :=
  cuda_is_available W = cuda_is_available W' ∧
  pipeline_outcome W = pipeline_outcome W' ∧
  model_outcome W = model_outcome W' ∧
  str W = str W' ∧
  tempfile_outcome W = tempfile_outcome W' ∧
  write_outcome W = write_outcome W' ∧
  close_outcome W = close_outcome W' ∧
  response_text_outcome W = response_text_outcome W'.

(** The cache, away from the entry of [m], is as before. *)
Definition only_touches (m : ASRModel) (s s' : State) : Prop :=
  ∀ m', m' ≠ m → loaded_models s' !! m' = loaded_models s !! m'.

(** Every cached handle was built for its identifier, at a time in the
    past. *)
Definition handles_configured (s : State) : Prop :=
  ∀ m h, loaded_models s !! m = Some h →
    (∃ cuda, handle_args h = load_args cuda m) ∧
    handle_id h < List.length (trace s).

Definition keeps_handles_configured (s s' : State) : Prop :=
  handles_configured s → handles_configured s'.

(** The engine returns on every audio file. *)
Definition engine_never_raises (W : World) : Prop :=
  ∀ t h p content, is_ok (model_outcome W t h p content) = true.

(** No temporary file was added. *)
Definition no_new_files (s s' : State) : Prop := storage s' ⊆ storage s.

(** The ways in which a request to [transcribe_audio] can end. *)
Inductive audio_outcome (m : ASRModel) : result Exn TranscriptionResponse → Prop :=
| audio_success text :
    audio_outcome m (Ok (response m text))
| audio_not_wav :
    audio_outcome m
      (Raise (HTTPException 400 "Only WAV files are supported. Please upload a .wav file."))
| audio_load_failed msg :
    audio_outcome m (Raise (HTTPException 500 ("Failed to load model: " ++ msg)))
| audio_failed msg :
    audio_outcome m (Raise (HTTPException 500 ("Failed to transcribe audio: " ++ msg)))
| audio_unbound :
    audio_outcome m (Raise (UnboundLocalError "temp_file_path")).

(** ** Isolation in the batch loop *)






(** ** Two callers of the cache *)

(** Two callers [A] and [B] of [get_or_load_model m], started in the state
    [s].  The function is a plain [def] without [await], and the handlers,
    which are [async def], call it before their first [await]: on the
    event loop each call runs to its end before anything else runs.  So the
    two calls happen one after the other, in either order, with any number
    of steps of other requests in between.  [two_callers W m s a b s'] gives
    the result [a] of [A], the result [b] of [B] and the state [s'] after
    both. *)
Inductive two_callers (W : World) (m : ASRModel) (s : State)
  : result Exn Handle → result Exn Handle → State → Prop :=
| A_then_B (s_mid : State) :
    rtc (step W) (get_or_load_model W m s).2 s_mid →
    two_callers W m s
      (get_or_load_model W m s).1
      (get_or_load_model W m s_mid).1
      (get_or_load_model W m s_mid).2
| B_then_A (s_mid : State) :
    rtc (step W) (get_or_load_model W m s).2 s_mid →
    two_callers W m s
      (get_or_load_model W m s_mid).1
      (get_or_load_model W m s).1
      (get_or_load_model W m s_mid).2.

(** ** Sample worlds and uploads *)

(** Every collaborator succeeds; there is no accelerator; the engine
    answers with [result]. *)
Definition world_answering (result : Py.value) : World :=
  {| cuda_is_available := λ _, false;
     pipeline_outcome := λ _ _, Ok ();
     model_outcome := λ _ _ _ _, Ok result;
     str := λ _, "<object>";
     tempfile_outcome := λ _, Ok ();
     write_outcome := λ _ _ _, Ok ();
     close_outcome := λ _ _, Ok ();
     unlink_outcome := λ _ _, Ok ();
     response_text_outcome := λ _, Raise "1 validation error for TranscriptionResponse" |}.

Definition world_ok : World :=
  world_answering (Py.Dict {[ "text" := Py.Str "sawasdee" ]}).

(** As [world_ok], with an accelerator. *)
Definition world_cuda : World :=
  {| cuda_is_available := λ _, true;
     pipeline_outcome := pipeline_outcome world_ok;
     model_outcome := model_outcome world_ok;
     str := str world_ok;
     tempfile_outcome := tempfile_outcome world_ok;
     write_outcome := write_outcome world_ok;
     close_outcome := close_outcome world_ok;
     unlink_outcome := unlink_outcome world_ok;
     response_text_outcome := response_text_outcome world_ok |}.

(** As [world_ok], but the construction of a pipeline raises. *)
Definition world_load_fails : World :=
  {| cuda_is_available := cuda_is_available world_ok;
     pipeline_outcome := λ _ _, Raise "out of memory";
     model_outcome := model_outcome world_ok;
     str := str world_ok;
     tempfile_outcome := tempfile_outcome world_ok;
     write_outcome := write_outcome world_ok;
     close_outcome := close_outcome world_ok;
     unlink_outcome := unlink_outcome world_ok;
     response_text_outcome := response_text_outcome world_ok |}.

(** As [world_ok], but the engine raises on every audio file. *)
Definition world_engine_fails : World :=
  {| cuda_is_available := cuda_is_available world_ok;
     pipeline_outcome := pipeline_outcome world_ok;
     model_outcome := λ _ _ _ _, Raise "could not decode audio";
     str := str world_ok;
     tempfile_outcome := tempfile_outcome world_ok;
     write_outcome := write_outcome world_ok;
     close_outcome := close_outcome world_ok;
     unlink_outcome := unlink_outcome world_ok;
     response_text_outcome := response_text_outcome world_ok |}.

(** As [world_ok], but [os.unlink] raises. *)
Definition world_unlink_fails : World :=
  {| cuda_is_available := cuda_is_available world_ok;
     pipeline_outcome := pipeline_outcome world_ok;
     model_outcome := model_outcome world_ok;
     str := str world_ok;
     tempfile_outcome := tempfile_outcome world_ok;
     write_outcome := write_outcome world_ok;
     close_outcome := close_outcome world_ok;
     unlink_outcome := λ _ _, Raise "[Errno 13] Permission denied";
     response_text_outcome := response_text_outcome world_ok |}.

(** As [world_ok], but writing the temporary file raises. *)
Definition world_write_fails : World :=
  {| cuda_is_available := cuda_is_available world_ok;
     pipeline_outcome := pipeline_outcome world_ok;
     model_outcome := model_outcome world_ok;
     str := str world_ok;
     tempfile_outcome := tempfile_outcome world_ok;
     write_outcome := λ _ _ _, Raise "[Errno 28] No space left on device";
     close_outcome := close_outcome world_ok;
     unlink_outcome := unlink_outcome world_ok;
     response_text_outcome := response_text_outcome world_ok |}.

(** As [world_ok], but the first construction of a pipeline raises and
    later ones succeed. *)
Definition world_load_fails_once : World :=
  {| cuda_is_available := cuda_is_available world_ok;
     pipeline_outcome := λ t _, if Nat.ltb t 2 then Raise "connection timed out" else Ok ();
     model_outcome := model_outcome world_ok;
     str := str world_ok;
     tempfile_outcome := tempfile_outcome world_ok;
     write_outcome := write_outcome world_ok;
     close_outcome := close_outcome world_ok;
     unlink_outcome := unlink_outcome world_ok;
     response_text_outcome := response_text_outcome world_ok |}.




Definition upload (name : string) : UploadFile :=
  {| filename := name; read := Ok [] |}.

(** An upload whose [read] raises. *)
Definition broken_upload (name : string) : UploadFile :=
  {| filename := name; read := Raise "connection reset" |}.

(** * Properties *)

Local Open Scope list_scope.

Example lower_wav : Py.endswith (Py.lower "Clip.WAV") ".wav" = true.
Proof. reflexivity. Qed.

Example lower_mp3 : Py.endswith (Py.lower "clip.mp3") ".wav" = false.
Proof. reflexivity. Qed.

Example dict_get_ex :
  Py.dict_get {[ "text" := Py.Str "hi" ]} "text" (Py.Str "") = Py.Str "hi".
Proof. vm_compute. reflexivity. Qed.

(** ** Stability of computations under a preorder on stores *)

Section Stable.
Context {E Σ : Type} (R : relation Σ) `{!PreOrder R}.

Lemma stable_ret {A} (a : A) : stable R (ret (E:=E) a).
Proof. intros s. reflexivity. Qed.

Lemma stable_raise {A} (e : E) : stable R (raise (A:=A) e).
Proof. intros s. reflexivity. Qed.

Lemma stable_gets {A} (f : Σ → A) : stable R (gets (E:=E) f).
Proof. intros s. reflexivity. Qed.

Lemma stable_outcome {A} (r : result E A) : stable R (outcome (Σ:=Σ) r).
Proof. intros s. reflexivity. Qed.

Lemma stable_bind {A B} (m : M E Σ A) (k : A → M E Σ B) :
  stable R m → (∀ a, stable R (k a)) → stable R (bind m k).
Proof.
  intros Hm Hk s. unfold bind. specialize (Hm s).
  destruct (m s) as [[a|e] s1]; cbn in *; [|done].
  etrans; [exact Hm | apply Hk].
Qed.

Lemma stable_try_finally {A} (body : M E Σ A) (fin : M E Σ ()) :
  stable R body → stable R fin → stable R (try_finally body fin).
Proof.
  intros Hb Hf s. unfold try_finally. specialize (Hb s).
  destruct (body s) as [r s1]; cbn in *. specialize (Hf s1).
  destruct (fin s1) as [[[]|e] s2]; cbn in *; by etrans.
Qed.

Lemma stable_for_each {A} (xs : list A) (body : A → M E Σ ()) :
  (∀ x, stable R (body x)) → stable R (for_each xs body).
Proof.
  intros Hb. induction xs as [|x xs IH]; cbn.
  - apply stable_ret.
  - apply stable_bind; [apply Hb | intros _; apply IH].
Qed.

End Stable.

Lemma stable_try_except {E E' Σ A} (R : relation Σ) `{!PreOrder R}
    (body : M E Σ A) (handler : E → M E' Σ A) :
  stable R body → (∀ e, stable R (handler e)) → stable R (try_except body handler).
Proof.
  intros Hb Hh s. unfold try_except. specialize (Hb s).
  destruct (body s) as [[a|e] s1]; cbn in *; [done|].
  etrans; [exact Hb | apply Hh].
Qed.

Lemma stable_weaken {E Σ A} (R R' : relation Σ) (m : M E Σ A) :
  (∀ s s', R s s' → R' s s') → stable R m → stable R' m.
Proof. intros HR Hm s. apply HR, Hm. Qed.

Global Instance on_globals_preorder {G L} (R : relation G) `{!PreOrder R} :
  PreOrder (on_globals (L:=L) R).
Proof.
  split.
  - intros s. unfold on_globals. reflexivity.
  - intros s1 s2 s3. unfold on_globals. apply transitivity.
Qed.

Lemma stable_lift {E G L A} (R : relation G) (m : M E G A) :
  stable R m → stable (on_globals (L:=L) R) (lift m).
Proof.
  intros Hm [g l]. unfold lift, on_globals. cbn. specialize (Hm g).
  by destruct (m g).
Qed.

Lemma stable_locals {E G L} (R : relation G) `{!PreOrder R} (f : G * L → L) :
  stable (on_globals R) (modify (E:=E) (λ s, (s.1, f s))).
Proof. intros s. unfold on_globals. cbn. reflexivity. Qed.

Lemma stable_with_locals {E G L A} (R : relation G) (init : L) (m : M E (G * L) A) :
  stable (on_globals R) m → stable R (with_locals init m).
Proof.
  intros Hm g. unfold with_locals. specialize (Hm (g, init)).
  unfold on_globals in Hm. by destruct (m (g, init)).
Qed.

(** ** Counting events *)

Lemma count_app (f : Event → bool) (t1 t2 : list Event) :
  count f (t1 ++ t2) = count f t1 + count f t2.
Proof. unfold count. by rewrite List.filter_app, length_app. Qed.

Lemma count_cons (f : Event → bool) (e : Event) (t : list Event) :
  count f (e :: t) = (if f e then 1 else 0) + count f t.
Proof. unfold count. cbn. by destruct (f e). Qed.

Lemma constructs_is_pipeline (m : ASRModel) (evs : list Event) :
  count is_pipeline evs = 0 → count (constructs m) evs = 0.
Proof.
  induction evs as [|e evs IH]; [done|].
  rewrite !count_cons. destruct e; cbn; first [done | lia].
Qed.

(** ** The quiet part of the service *)

Global Instance quiet_preorder : PreOrder quiet.
Proof.
  split.
  - intros s. split; [done|]. by exists [].
  - intros s1 s2 s3 [Hc1 (evs1 & Ht1 & Hn1)] [Hc2 (evs2 & Ht2 & Hn2)].
    split; [congruence|]. exists (evs2 ++ evs1).
    split; [by rewrite Ht2, Ht1, <-app_assoc|].
    rewrite count_app. lia.
Qed.

Lemma quiet_emit {E} (e : Event) : is_pipeline e = false → stable quiet (emit (E:=E) e).
Proof.
  intros He s. split; [done|]. exists [e]. split; [done|].
  rewrite count_cons, He. done.
Qed.

Lemma quiet_set_storage {E} f : stable quiet (modify (E:=E) (set_storage f)).
Proof. intros s. split; [done|]. by exists []. Qed.

Ltac stable_step :=
  lazymatch goal with
  | |- PreOrder _ => apply _
  | |- stable _ _ =>
      first
        [ apply stable_ret | apply stable_raise | apply stable_gets
        | apply stable_outcome
        | apply quiet_set_storage
        | apply quiet_emit; reflexivity
        | apply stable_locals
        | apply stable_lift
        | apply stable_with_locals
        | apply stable_bind
        | apply stable_try_finally
        | apply stable_try_except
        | apply stable_for_each ]
  | |- ∀ _, _ => intros ?
  end.

Ltac stable_auto := repeat stable_step.

Section Quiet.
Context (W : World).

Lemma quiet_file_read file : stable quiet (file_read file).
Proof. unfold file_read. stable_auto. Qed.

Lemma quiet_NamedTemporaryFile : stable quiet (tempfile_NamedTemporaryFile W).
Proof. unfold tempfile_NamedTemporaryFile, now. stable_auto. Qed.

Lemma quiet_file_write p content : stable quiet (file_write W p content).
Proof. unfold file_write, now. stable_auto. Qed.

Lemma quiet_file_close p : stable quiet (file_close W p).
Proof. unfold file_close, now. stable_auto. Qed.

Lemma quiet_call h p : stable quiet (call W h p).
Proof. unfold call, now. stable_auto. Qed.

Lemma quiet_os_path_exists {E} p : stable quiet (os_path_exists (E:=E) p).
Proof. unfold os_path_exists. stable_auto. Qed.

Lemma quiet_os_unlink p : stable quiet (os_unlink W p).
Proof. unfold os_unlink, now. stable_auto. Qed.

End Quiet.

Create HintDb quiet.
#[export] Hint Resolve quiet_file_read quiet_NamedTemporaryFile quiet_file_write
  quiet_file_close quiet_call quiet_os_path_exists quiet_os_unlink : quiet.

Ltac quiet_auto :=
  repeat
    lazymatch goal with
    | |- stable _ (match ?x with _ => _ end) => destruct x
    | |- stable _ (let _ := _ in _) => cbv zeta
    | |- stable quiet _ => first [solve [auto 1 with quiet] | stable_step]
    | |- _ => stable_step
    end.

(** ** The cache protocol *)

Section Cache.
Context (W : World).

Lemma get_or_load_model_cached m s h :
  loaded_models s !! m = Some h → get_or_load_model W m s = (Ok h, s).
Proof.
  intros H. unfold get_or_load_model, bind, gets, ret. cbn.
  rewrite !H. cbn. by rewrite ?H.
Qed.

Lemma get_or_load_model_miss m s :
  loaded_models s !! m = None →
  let args := load_args (load_cuda W s) m in
  let h := {| handle_id := load_time s; handle_args := args |} in
  get_or_load_model W m s =
    match pipeline_outcome W (load_time s) args with
    | Ok _ =>
        (Ok h, {| loaded_models := <[m := h]> (loaded_models s);
                  storage := storage s;
                  trace := Pipeline args true :: CudaIsAvailable (load_cuda W s) :: trace s |})
    | Raise e =>
        (Raise (HTTPException 500 ("Failed to load model: " ++ e)%string),
         {| loaded_models := loaded_models s;
            storage := storage s;
            trace := Pipeline args false :: CudaIsAvailable (load_cuda W s) :: trace s |})
    end.
Proof.
  intros H args h.
  unfold get_or_load_model, try_except, torch_cuda_is_available, pipeline,
    now, emit, modify, outcome, raise, gets, bind, ret. cbn.
  rewrite H. cbn. fold (load_cuda W s). fold args. unfold load_time.
  destruct (pipeline_outcome W _ args) as [[]|e]; cbn; [|done].
  unfold set_loaded_models; cbn. by rewrite lookup_insert_eq.
Qed.

(** Whatever the endpoints do after [get_or_load_model] is quiet. *)
Section AfterLoad.
Context (R : relation State) `{!PreOrder R}.
Hypothesis quiet_R : ∀ s s', quiet s s' → R s s'.
Hypothesis load_R : ∀ m, stable R (get_or_load_model W m).

Lemma quiet_cleanup : stable (on_globals quiet) (cleanup W).
Proof. unfold cleanup. quiet_auto. Qed.

Lemma quiet_batch_item h m file : stable (on_globals quiet) (batch_item W h m file).
Proof. unfold batch_item, append. quiet_auto. Qed.

Lemma stable_transcribe_audio file m : stable R (transcribe_audio W file m).
Proof.
  unfold transcribe_audio. destruct (negb (is_wav file)); [apply stable_raise, _|].
  apply stable_bind; [apply _ | apply load_R | intros h].
  apply (stable_weaken quiet); [done|].
  unfold set_temp_file, set_temp_file_path. quiet_auto.
Qed.

Lemma stable_transcribe_batch files m : stable R (transcribe_batch W files m).
Proof.
  unfold transcribe_batch.
  apply stable_bind; [apply _ | apply load_R | intros h].
  apply (stable_weaken quiet); [done|].
  quiet_auto.
Qed.

Lemma stable_step s s' : step W s s' → R s s'.
Proof.
  intros [m|file m|files m];
    [apply load_R | apply stable_transcribe_audio | apply stable_transcribe_batch].
Qed.

Lemma stable_steps s s' : rtc (step W) s s' → R s s'.
Proof.
  induction 1 as [|s1 s2 s3 H12 _ IH]; [reflexivity|].
  etrans; [by apply stable_step | exact IH].
Qed.

End AfterLoad.
End Cache.

(** ** Invariants of the cache *)

Global Instance cache_grows_preorder : PreOrder cache_grows.
Proof.
  split.
  - intros s. unfold cache_grows. reflexivity.
  - intros s1 s2 s3. unfold cache_grows. apply transitivity.
Qed.

Global Instance keeps_single_instance_preorder : PreOrder keeps_single_instance.
Proof. split; unfold keeps_single_instance; [intros s | intros s1 s2 s3]; tauto. Qed.

Lemma quiet_cache_grows s s' : quiet s s' → cache_grows s s'.
Proof. intros [Hc _]. unfold cache_grows. by rewrite Hc. Qed.

Lemma quiet_keeps_single_instance s s' : quiet s s' → keeps_single_instance s s'.
Proof.
  intros [Hc (evs & Ht & Hn)] Hinv m. specialize (Hinv m).
  rewrite Hc, Ht, count_app, (constructs_is_pipeline m evs Hn).
  destruct (loaded_models s !! m); [|done].
  destruct Hinv as (? & ? & ?). split_and!; [done | | done].
  apply in_or_app. by right.
Qed.

Lemma repo_inj m m' : repo (MODEL_CONFIG m) = repo (MODEL_CONFIG m') → m = m'.
Proof. by destruct m, m'. Qed.

Lemma constructs_load_args m m' b :
  constructs m' (Pipeline (load_args b m) true) = bool_decide (m = m').
Proof. by destruct m, m', b. Qed.

Section CacheInvariants.
Context (W : World).

Lemma get_or_load_model_cache_grows m : stable cache_grows (get_or_load_model W m).
Proof.
  intros s. destruct (loaded_models s !! m) as [h|] eqn:Hm.
  - rewrite (get_or_load_model_cached W m s h Hm). reflexivity.
  - rewrite (get_or_load_model_miss W m s Hm). cbv zeta.
    destruct (pipeline_outcome W _ _); unfold cache_grows; cbn; [|done].
    by apply insert_subseteq.
Qed.

Lemma get_or_load_model_keeps_single_instance m :
  stable keeps_single_instance (get_or_load_model W m).
Proof.
  intros s Hinv. destruct (loaded_models s !! m) as [h|] eqn:Hm.
  - by rewrite (get_or_load_model_cached W m s h Hm).
  - rewrite (get_or_load_model_miss W m s Hm). cbv zeta.
    destruct (pipeline_outcome W _ _); intros m'; specialize (Hinv m'); cbn.
    + rewrite !count_cons, constructs_load_args. cbn.
      destruct (decide (m = m')) as [<-|Hne].
      * rewrite lookup_insert_eq, bool_decide_eq_true_2 by done.
        rewrite Hm in Hinv. rewrite Hinv. split_and!; [done | by left | done].
      * rewrite lookup_insert_ne, bool_decide_eq_false_2 by done.
        destruct (loaded_models s !! m'); [|done].
        destruct Hinv as (? & ? & ?). split_and!; [done | by do 2 right | done].
    + rewrite !count_cons. cbn.
      destruct (loaded_models s !! m'); [|done].
      destruct Hinv as (? & ? & ?). split_and!; [done | by do 2 right | done].
Qed.

Lemma single_instance_initial : single_instance initial.
Proof. intros m. cbn. by rewrite lookup_empty. Qed.

Lemma steps_cache_grows s s' : rtc (step W) s s' → cache_grows s s'.
Proof.
  apply (stable_steps W cache_grows);
    [apply quiet_cache_grows | apply get_or_load_model_cache_grows].
Qed.

Lemma reachable_single_instance s : reachable W s → single_instance s.
Proof.
  intros Hs.
  by apply (stable_steps W keeps_single_instance
              quiet_keeps_single_instance get_or_load_model_keeps_single_instance
              initial s Hs), single_instance_initial.
Qed.

End CacheInvariants.

(** ** The cache: loading once, reuse, failed loads, device selection *)

(** C3.  For every model identifier [m] that has no entry yet, a call of
    [get_or_load_model] in which the engine's build operation succeeds
    calls that operation exactly once, returns the constructed handle and
    stores it under [m]; every later call for [m], after any number of
    requests, returns the identical handle and changes nothing: in
    particular it does not call the build operation again. *)
Theorem first_load_builds_once_then_reuses (W : World) (m : ASRModel) (s : State) :
  loaded_models s !! m = None →
  pipeline_outcome W (load_time s) (load_args (load_cuda W s) m) = Ok () →
  ∃ h s1,
    get_or_load_model W m s = (Ok h, s1) ∧
    count is_pipeline (trace s1) = S (count is_pipeline (trace s)) ∧
    loaded_models s1 = <[m := h]> (loaded_models s) ∧
    ∀ s2, rtc (step W) s1 s2 → get_or_load_model W m s2 = (Ok h, s2).
Proof.
  intros Hm Hok. rewrite (get_or_load_model_miss W m s Hm). cbv zeta.
  rewrite Hok. eexists _, _. split_and!; [done | | done |].
  - cbn. by rewrite !count_cons.
  - intros s2 Hs2. apply get_or_load_model_cached.
    apply steps_cache_grows in Hs2. unfold cache_grows in Hs2. cbn in Hs2.
    eapply lookup_weaken; [|exact Hs2]. apply lookup_insert_eq.
Qed.

Lemma first_load_builds_once_then_reuses_witness :
  ∃ h s1,
    get_or_load_model world_ok TYPHOON_ISAN_WHISPER initial = (Ok h, s1) ∧
    count is_pipeline (trace s1) = S (count is_pipeline (trace initial)) ∧
    loaded_models s1 = <[TYPHOON_ISAN_WHISPER := h]> (loaded_models initial) ∧
    ∀ s2, rtc (step world_ok) s1 s2 →
          get_or_load_model world_ok TYPHOON_ISAN_WHISPER s2 = (Ok h, s2).
Proof.
  apply (first_load_builds_once_then_reuses world_ok TYPHOON_ISAN_WHISPER initial);
    reflexivity.
Defined.

(** C4.  When the engine's build operation raises, [get_or_load_model]
    raises an error whose detail carries the engine's message and leaves
    the cache as it was, without an entry for the identifier; when the
    build operation succeeds the handle is stored under the identifier;
    and in every reachable state the cache holds at most one instance per
    identifier: exactly one handle was ever constructed for an identifier
    with an entry, none for an identifier without. *)
Theorem failed_load_leaves_no_entry (W : World) :
  (∀ m s msg,
     loaded_models s !! m = None →
     pipeline_outcome W (load_time s) (load_args (load_cuda W s) m) = Raise msg →
     ∃ s1,
       get_or_load_model W m s
         = (Raise (HTTPException 500 ("Failed to load model: " ++ msg)%string), s1) ∧
       loaded_models s1 = loaded_models s ∧
       loaded_models s1 !! m = None) ∧
  (∀ m s,
     loaded_models s !! m = None →
     pipeline_outcome W (load_time s) (load_args (load_cuda W s) m) = Ok () →
     ∃ h s1,
       get_or_load_model W m s = (Ok h, s1) ∧ loaded_models s1 !! m = Some h) ∧
  (∀ s, reachable W s → single_instance s).
Proof.
  split_and!.
  - intros m s msg Hm Hfail. rewrite (get_or_load_model_miss W m s Hm). cbv zeta.
    rewrite Hfail. by eexists.
  - intros m s Hm Hok. rewrite (get_or_load_model_miss W m s Hm). cbv zeta.
    rewrite Hok. eexists _, _. split; [done|]. cbn. apply lookup_insert_eq.
  - apply reachable_single_instance.
Qed.

Lemma failed_load_leaves_no_entry_witness :
  (∃ s1,
     get_or_load_model world_load_fails MONSOON_WHISPER_MEDIUM initial
       = (Raise (HTTPException 500 "Failed to load model: out of memory"), s1) ∧
     loaded_models s1 = loaded_models initial ∧
     loaded_models s1 !! MONSOON_WHISPER_MEDIUM = None) ∧
  (∃ h s1,
     get_or_load_model world_ok MONSOON_WHISPER_MEDIUM initial = (Ok h, s1) ∧
     loaded_models s1 !! MONSOON_WHISPER_MEDIUM = Some h) ∧
  single_instance (get_or_load_model world_ok MONSOON_WHISPER_MEDIUM initial).2.
Proof.
  split_and!.
  - apply (proj1 (failed_load_leaves_no_entry world_load_fails)
             MONSOON_WHISPER_MEDIUM initial "out of memory"); reflexivity.
  - apply (proj1 (proj2 (failed_load_leaves_no_entry world_ok))
             MONSOON_WHISPER_MEDIUM initial); reflexivity.
  - apply (proj2 (proj2 (failed_load_leaves_no_entry world_ok))).
    apply rtc_once. apply step_get_or_load_model.
Defined.

(** C9.  When [get_or_load_model] has to load, it asks whether an
    accelerator is available and then calls the build operation once, with
    the repository of the identifier, the accelerator device (index 0) and
    half precision when there is an accelerator, the processor (index -1)
    and single precision otherwise, chunks of 30 seconds and timestamp
    prediction; a handle it returns is configured with these arguments. *)
Theorem load_selects_device_and_chunking (W : World) (m : ASRModel) (s : State) :
  loaded_models s !! m = None →
  let cuda := load_cuda W s in
  let r := get_or_load_model W m s in
  ∃ args constructed,
    trace r.2 = Pipeline args constructed :: CudaIsAvailable cuda :: trace s ∧
    task args = "automatic-speech-recognition" ∧
    model args = repo (MODEL_CONFIG m) ∧
    device args = (if cuda then 0 else -1)%Z ∧
    torch_dtype args = (if cuda then float16 else float32) ∧
    chunk_length_s args = 30%Z ∧
    return_timestamps args = true ∧
    (∀ h, r.1 = Ok h → handle_args h = args ∧ loaded_models r.2 !! m = Some h).
Proof.
  intros Hm cuda r. subst r. rewrite (get_or_load_model_miss W m s Hm). cbv zeta.
  fold cuda. exists (load_args cuda m).
  destruct (pipeline_outcome W _ _) as [[]|e]; eexists; cbn;
    (split_and!; [done | done | done | by destruct cuda | by destruct cuda
                 | done | done | ]).
  - intros h [= <-]. cbn. split; [done | apply lookup_insert_eq].
  - intros h [=].
Qed.

Lemma load_selects_device_and_chunking_witness :
  ∃ args constructed,
    trace (get_or_load_model world_cuda TYPHOON_ISAN_WHISPER initial).2
      = Pipeline args constructed :: CudaIsAvailable true :: [] ∧
    task args = "automatic-speech-recognition" ∧
    model args = "scb10x/typhoon-isan-asr-whisper" ∧
    device args = 0%Z ∧
    torch_dtype args = float16 ∧
    chunk_length_s args = 30%Z ∧
    return_timestamps args = true ∧
    (∀ h, (get_or_load_model world_cuda TYPHOON_ISAN_WHISPER initial).1 = Ok h →
          handle_args h = args ∧
          loaded_models (get_or_load_model world_cuda TYPHOON_ISAN_WHISPER initial).2
            !! TYPHOON_ISAN_WHISPER = Some h).
Proof.
  apply (load_selects_device_and_chunking world_cuda TYPHOON_ISAN_WHISPER initial).
  reflexivity.
Defined.

(** C8.  Two callers of [get_or_load_model] for the same identifier, which
    has no entry when they start, are served one after the other, in
    either order and with any steps of other requests in between.  When
    the build operation succeeds for the caller that runs first, both
    callers get the same handle, that handle is the cache entry, and over
    the whole history exactly one handle was constructed for the
    identifier (none before the two calls): the caller that runs second
    finds the entry and does not build.  The cache still holds at most one
    instance per identifier. *)
Theorem concurrent_first_calls_load_once (W : World) (m : ASRModel) (s : State)
    (a b : result Exn Handle) (s' : State) :
  reachable W s →
  loaded_models s !! m = None →
  pipeline_outcome W (load_time s) (load_args (load_cuda W s) m) = Ok () →
  two_callers W m s a b s' →
  ∃ h,
    a = Ok h ∧ b = Ok h ∧
    loaded_models s' !! m = Some h ∧
    count (constructs m) (trace s) = 0 ∧
    count (constructs m) (trace s') = 1 ∧
    single_instance s'.
Proof.
  intros Hs Hm Hok Htwo.
  pose proof (reachable_single_instance W s Hs m) as Hbefore. rewrite Hm in Hbefore.
  assert (∃ h s_mid,
            get_or_load_model W m s = (Ok h, (get_or_load_model W m s).2) ∧
            rtc (step W) (get_or_load_model W m s).2 s_mid ∧
            get_or_load_model W m s_mid = (Ok h, s_mid) ∧
            loaded_models s_mid !! m = Some h ∧
            (a = (get_or_load_model W m s).1 ∧ b = (get_or_load_model W m s_mid).1 ∨
             a = (get_or_load_model W m s_mid).1 ∧ b = (get_or_load_model W m s).1) ∧
            s' = s_mid) as (h & s_mid & Hfirst & Hmid & Hsecond & Hentry & Hab & ->).
  { assert (∀ s_mid, rtc (step W) (get_or_load_model W m s).2 s_mid →
              ∃ h, get_or_load_model W m s = (Ok h, (get_or_load_model W m s).2) ∧
                   get_or_load_model W m s_mid = (Ok h, s_mid) ∧
                   loaded_models s_mid !! m = Some h) as Hboth.
    { intros s_mid Hmid. revert Hmid.
      rewrite (get_or_load_model_miss W m s Hm). cbv zeta. rewrite Hok. cbn [fst snd].
      intros Hmid. eexists. split; [done|].
      apply steps_cache_grows in Hmid. unfold cache_grows in Hmid. cbn in Hmid.
      assert (loaded_models s_mid !! m
              = Some {| handle_id := load_time s;
                        handle_args := load_args (load_cuda W s) m |}) as Hentry.
      { eapply lookup_weaken; [|exact Hmid]. apply lookup_insert_eq. }
      split; [by apply get_or_load_model_cached | done]. }
    destruct Htwo as [s_mid Hmid|s_mid Hmid];
      destruct (Hboth s_mid Hmid) as (h & Hfirst & Hsecond & Hentry);
      exists h, s_mid; rewrite Hsecond; cbn [fst snd]; split_and!; auto. }
  assert (reachable W s_mid) as Hreach.
  { unfold reachable. etrans; [exact Hs|].
    eapply rtc_l; [apply (step_get_or_load_model W s m) | exact Hmid]. }
  pose proof (reachable_single_instance W s_mid Hreach) as Hafter.
  pose proof (Hafter m) as Hm'. rewrite Hentry in Hm'. destruct Hm' as (Hone & _).
  exists h. rewrite Hfirst, Hsecond in Hab. cbn [fst snd] in Hab.
  split_and!; try done; by destruct Hab as [[-> ->]|[-> ->]].
Qed.

Lemma concurrent_first_calls_load_once_witness :
  let s1 := (get_or_load_model world_ok TYPHOON_ISAN_WHISPER initial).2 in
  let s_mid := (transcribe_batch world_ok [upload "a.wav"] MONSOON_WHISPER_MEDIUM s1).2 in
  ∃ h,
    (get_or_load_model world_ok TYPHOON_ISAN_WHISPER s_mid).1 = Ok h ∧
    (get_or_load_model world_ok TYPHOON_ISAN_WHISPER initial).1 = Ok h ∧
    loaded_models (get_or_load_model world_ok TYPHOON_ISAN_WHISPER s_mid).2
      !! TYPHOON_ISAN_WHISPER = Some h ∧
    count (constructs TYPHOON_ISAN_WHISPER) (trace initial) = 0 ∧
    count (constructs TYPHOON_ISAN_WHISPER)
      (trace (get_or_load_model world_ok TYPHOON_ISAN_WHISPER s_mid).2) = 1 ∧
    single_instance (get_or_load_model world_ok TYPHOON_ISAN_WHISPER s_mid).2.
Proof.
  intros s1 s_mid.
  apply (concurrent_first_calls_load_once world_ok TYPHOON_ISAN_WHISPER initial).
  - apply rtc_refl.
  - reflexivity.
  - reflexivity.
  - apply B_then_A. apply rtc_once, step_transcribe_batch.
Defined.


(** ** The batch loop *)

Lemma for_each_appends {E Σ A B} (body : A → M E (Σ * list B) ())
    (P : A → list B → Prop) :
  (∀ x s rs, ∃ s' g, body x (s, rs) = (Ok (), (s', rs ++ g)) ∧ P x g) →
  ∀ xs s rs, ∃ s' gs,
    for_each xs body (s, rs) = (Ok (), (s', rs ++ List.concat gs)) ∧ Forall2 P xs gs.
Proof.
  intros Hbody xs. induction xs as [|x xs IH]; intros s rs; cbn.
  - exists s, []. cbn. by rewrite app_nil_r.
  - destruct (Hbody x s rs) as (s1 & g & Hx & HP).
    destruct (IH s1 (rs ++ g)) as (s2 & gs & Hxs & HPs).
    exists s2, (g :: gs). unfold bind. rewrite Hx, Hxs. cbn.
    split; [by rewrite <-app_assoc | by constructor].
Qed.

Ltac run :=
  unfold transcribe_audio, cleanup, set_temp_file, set_temp_file_path,
    batch_item, with_locals, try_except, try_finally, append, lift, file_read,
    tempfile_NamedTemporaryFile, file_write, file_close, call, os_path_exists,
    os_unlink, now, emit, outcome, modify, gets, raise, bind, ret; cbn.

Lemma outcome_of_error file msg : outcome_of file [error_entry (filename file) msg].
Proof.
  split_and!; [done | |]; apply Forall_singleton.
  - unfold entry_of, error_entry. by simplify_map_eq.
  - intros _. unfold error_entry. split; [exists msg|]; by simplify_map_eq.
Qed.

Lemma entry_of_success file text m :
  entry_of file (success_entry (filename file) text m).
Proof. unfold entry_of, success_entry. by simplify_map_eq. Qed.

Lemma failure_shape_success name text m : failure_shape (success_entry name text m).
Proof. unfold failure_shape, is_failure, success_entry. by simplify_map_eq. Qed.

Lemma failure_shape_error name msg : failure_shape (error_entry name msg).
Proof.
  intros _. unfold error_entry. split; [exists msg|]; by simplify_map_eq.
Qed.

Lemma item_summary_error W m file msg :
  (∀ content, read file = Ok content → is_wav file = true →
     staging_succeeds W → ∀ v, ¬ engine_answers W v) →
  item_summary W m file [error_entry (filename file) msg].
Proof.
  intros Hno. split_and!; [apply outcome_of_error | by eexists |].
  intros content v Hwav Hread Hst Hv. by destruct (Hno content Hread Hwav Hst v).
Qed.

Section Batch.
Context (W : World).

Lemma batch_item_invalid h m file s rs :
  is_wav file = false →
  batch_item W h m file (s, rs)
    = (Ok (), (s, rs ++ [error_entry (filename file) "Only WAV files are supported"])).
Proof. intros Hwav. run. by rewrite Hwav. Qed.

Lemma batch_item_summary h m file s rs :
  ∃ s' g,
    batch_item W h m file (s, rs) = (Ok (), (s', rs ++ g)) ∧ item_summary W m file g.
Proof.
  run. destruct (is_wav file) eqn:Hwav; cbn.
  2:{ eexists _, _. split; [done|]. apply item_summary_error. intros; congruence. }
  destruct (read file) as [content|e] eqn:Hread; cbn.
  2:{ eexists _, _. split; [done|]. apply item_summary_error. intros; congruence. }
  destruct (tempfile_outcome W _) as [[]|e] eqn:Htmp; cbn.
  2:{ eexists _, _. split; [done|]. apply item_summary_error.
      intros ? _ _ (Hst & _ & _). by rewrite Hst in Htmp. }
  destruct (write_outcome W _ _ _) as [[]|e] eqn:Hwrite; cbn.
  2:{ destruct (close_outcome W _ _) as [[]|e']; cbn;
        (eexists _, _; split; [done|]; apply item_summary_error;
         intros ? _ _ (_ & Hst & _); by rewrite Hst in Hwrite). }
  destruct (close_outcome W _ _) as [[]|e] eqn:Hclose; cbn.
  2:{ eexists _, _. split; [done|]. apply item_summary_error.
      intros ? _ _ (_ & _ & Hst). by rewrite Hst in Hclose. }
  destruct (model_outcome W _ _ _ _) as [v|e] eqn:Hcall; cbn.
  2:{ eexists _, _. split; [done|]. apply item_summary_error.
      intros ? _ _ _ v Hv. by rewrite Hv in Hcall. }
  assert (∀ v', engine_answers W v' →
            success_entry (filename file) (extract_text W v) m
            = success_entry (filename file) (extract_text W v') m) as Hsame.
  { intros v' Hv'. rewrite Hv' in Hcall. by injection Hcall as ->. }
  destruct (unlink_outcome W _ _) as [[]|e] eqn:Hunlink; cbn.
  - eexists _, _. split; [done|]. split_and!.
    + split_and!; [done | |]; apply Forall_singleton;
        [apply entry_of_success | apply failure_shape_success].
    + by eexists.
    + intros content' v' _ _ _ Hv'. cbn. f_equal. by apply Hsame.
  - eexists _, [_; _]. split; [by rewrite <-app_assoc|]. split_and!.
    + split_and!; [done | |].
      * constructor; [apply entry_of_success | apply Forall_singleton].
        unfold entry_of, error_entry. by simplify_map_eq.
      * constructor; [apply failure_shape_success |].
        apply Forall_singleton, failure_shape_error.
    + intros Hok. by rewrite Hok in Hunlink.
    + intros content' v' _ _ _ Hv'. cbn. f_equal. by apply Hsame.
Qed.

Lemma transcribe_batch_load_fails files m s e s1 :
  get_or_load_model W m s = (Raise e, s1) →
  transcribe_batch W files m s = (Raise e, s1).
Proof. intros Hload. unfold transcribe_batch, bind. by rewrite Hload. Qed.

Lemma transcribe_batch_report files m s h s1 (P : UploadFile → list (gmap string Py.value) → Prop) :
  get_or_load_model W m s = (Ok h, s1) →
  (∀ file s rs, ∃ s' g,
      batch_item W h m file (s, rs) = (Ok (), (s', rs ++ g)) ∧ P file g) →
  ∃ s2 gs,
    transcribe_batch W files m s
      = (Ok {| results := List.concat gs;
               total := List.length files;
               report_model := value m;
               report_status := "completed" |}, s2) ∧
    Forall2 P files gs.
Proof.
  intros Hload Hitem.
  destruct (for_each_appends (E:=Exn) (batch_item W h m) P Hitem files s1 [])
    as (s2 & gs & Hloop & HP).
  exists s2, gs. split; [|done].
  unfold transcribe_batch, with_locals, bind, gets, ret.
  rewrite Hload. cbn. by rewrite Hloop.
Qed.

End Batch.

(** ** The single-file endpoint *)

Section Single.
Context (W : World).

Lemma transcribe_audio_invalid file m s :
  is_wav file = false →
  transcribe_audio W file m s
    = (Raise (HTTPException 400 "Only WAV files are supported. Please upload a .wav file."), s).
Proof. intros Hwav. unfold transcribe_audio. by rewrite Hwav. Qed.

Lemma transcribe_audio_load_fails file m s e s1 :
  is_wav file = true →
  get_or_load_model W m s = (Raise e, s1) →
  transcribe_audio W file m s = (Raise e, s1).
Proof.
  intros Hwav Hload. unfold transcribe_audio. rewrite Hwav. cbn [negb].
  unfold bind. by rewrite Hload.
Qed.

(** The path on which staging succeeds and the engine answers [v]. *)
Lemma transcribe_audio_answer file m s h s1 content v :
  is_wav file = true → read file = Ok content →
  staging_succeeds W → engine_answers W v →
  get_or_load_model W m s = (Ok h, s1) →
  ∃ s2,
    transcribe_audio W file m s
    = (match checked_text W (extract_text W v) with
       | Ok text => Ok (response m text)
       | Raise e => Raise (HTTPException 500 ("Failed to transcribe audio: " ++ e)%string)
       end, s2).
Proof.
  intros Hwav Hread (Htmp & Hwrite & Hclose) Hv Hload.
  unfold transcribe_audio. rewrite Hwav. cbn [negb]. unfold bind at 1. rewrite Hload.
  run. rewrite Hread. cbn.
  rewrite Htmp. cbn. rewrite Hwrite. cbn. rewrite Hclose. cbn. rewrite Hv. cbn.
  destruct (checked_text W (extract_text W v)); cbn;
    rewrite lookup_insert_eq; cbn;
    destruct (unlink_outcome W _ _) as [[]|?]; cbn; by eexists.
Qed.

Ltac pick_event H :=
  repeat destruct H as [H|H]; try done;
  injection H as <-; rewrite !count_cons; cbn; by rewrite Nat.eqb_refl.

(** Whenever the request got as far as writing the upload to a temporary
    file [p], it calls [os.unlink] on [p] exactly once, whatever happens
    afterwards. *)
Lemma transcribe_audio_releases_once file m s h s1 :
  is_wav file = true →
  get_or_load_model W m s = (Ok h, s1) →
  ∃ evs,
    trace (transcribe_audio W file m s).2 = evs ++ trace s1 ∧
    ∀ p, In (FileWrite p true) evs → count (is_unlink p) evs = 1.
Proof.
  intros Hwav Hload.
  unfold transcribe_audio. rewrite Hwav. cbn [negb]. unfold bind at 1. rewrite Hload.
  run.
  destruct (read file) as [content|e]; cbn.
  2:{ eexists [_]. split; [done|]. intros p H. pick_event H. }
  destruct (tempfile_outcome W _) as [[]|e]; cbn.
  2:{ eexists [_; _]. split; [done|]. intros p H. pick_event H. }
  destruct (write_outcome W _ _ _) as [[]|e]; cbn.
  2:{ destruct (close_outcome W _ _) as [[]|e']; cbn;
        (eexists [_; _; _; _]; split; [done|]; intros p H; pick_event H). }
  destruct (close_outcome W _ _) as [[]|e]; cbn.
  2:{ rewrite lookup_insert_eq; cbn.
      destruct (unlink_outcome W _ _) as [[]|?]; cbn;
        (eexists [_; _; _; _; _; _]; split; [done|]; intros p H; pick_event H). }
  destruct (model_outcome W _ _ _ _) as [v|e]; cbn.
  1: destruct (checked_text W (extract_text W v)); cbn.
  all: rewrite lookup_insert_eq; cbn.
  all: destruct (unlink_outcome W _ _) as [[]|?]; cbn.
  all: (eexists [_; _; _; _; _; _; _]; split; [done|]; intros p H; pick_event H).
Qed.

End Single.

(** When the write to the temporary file raises, [temp_file_path] is still
    unbound in the [finally] clause: the request ends with that error and
    the file stays. *)
Example transcribe_audio_write_fails :
  let r := transcribe_audio world_write_fails (upload "a.wav") TYPHOON_ISAN_WHISPER initial in
  r.1 = Raise (UnboundLocalError "temp_file_path") ∧
  storage r.2 !! 3 = Some [] ∧
  count (is_unlink 3) (trace r.2) = 0.
Proof. vm_compute. done. Qed.

(** ** Validation *)

Lemma for_each_invalid W h m files s rs :
  Forall (λ f, is_wav f = false) files →
  for_each files (batch_item W h m) (s, rs)
    = (Ok (E:=Exn) (), (s, rs ++ map invalid_entry files)).
Proof.
  intros Hfiles. revert rs. induction Hfiles as [|file files Hwav _ IH]; intros rs; cbn.
  - by rewrite app_nil_r.
  - unfold bind. rewrite (batch_item_invalid W h m file s rs Hwav), IH.
    by rewrite <-app_assoc.
Qed.

(** What the code does on an upload whose name does not end in [.wav]: it
    is detected before any staging.  In the single-file endpoint the request
    is rejected with status 400 before [get_or_load_model] is called: no
    collaborator is called and the state is unchanged.  In the batch
    endpoint [get_or_load_model] is called once, before any upload is
    examined; an invalid upload is then recorded as a failure entry
    without any call to a collaborator, so that a batch of invalid uploads
    ends in the state that [get_or_load_model] left. *)
Theorem invalid_upload_is_not_staged (W : World) :
  (∀ file m s,
     is_wav file = false →
     transcribe_audio W file m s
       = (Raise (HTTPException 400
                   "Only WAV files are supported. Please upload a .wav file."), s)) ∧
  (∀ h m file s rs,
     is_wav file = false →
     batch_item W h m file (s, rs) = (Ok (), (s, rs ++ [invalid_entry file]))) ∧
  (∀ files m s,
     Forall (λ f, is_wav f = false) files →
     transcribe_batch W files m s
       = match get_or_load_model W m s with
         | (Ok _, s1) =>
             (Ok {| results := map invalid_entry files;
                    total := List.length files;
                    report_model := value m;
                    report_status := "completed" |}, s1)
         | (Raise e, s1) => (Raise e, s1)
         end).
Proof.
  split_and!.
  - apply transcribe_audio_invalid.
  - apply batch_item_invalid.
  - intros files m s Hfiles. unfold transcribe_batch, with_locals, bind, gets, ret.
    destruct (get_or_load_model W m s) as [[h|e] s1]; [|done].
    by rewrite (for_each_invalid W h m files s1 [] Hfiles).
Qed.

Lemma invalid_upload_is_not_staged_witness :
  transcribe_audio world_ok (upload "clip.mp3") TYPHOON_ISAN_WHISPER initial
    = (Raise (HTTPException 400
                "Only WAV files are supported. Please upload a .wav file."), initial) ∧
  (∀ h rs,
     batch_item world_ok h TYPHOON_ISAN_WHISPER (upload "clip.mp3") (initial, rs)
       = (Ok (), (initial, rs ++ [invalid_entry (upload "clip.mp3")]))) ∧
  transcribe_batch world_ok [upload "clip.mp3"] TYPHOON_ISAN_WHISPER initial
    = match get_or_load_model world_ok TYPHOON_ISAN_WHISPER initial with
      | (Ok _, s1) =>
          (Ok {| results := map invalid_entry [upload "clip.mp3"];
                 total := 1;
                 report_model := value TYPHOON_ISAN_WHISPER;
                 report_status := "completed" |}, s1)
      | (Raise e, s1) => (Raise e, s1)
      end.
Proof.
  split_and!.
  - apply (proj1 (invalid_upload_is_not_staged world_ok)). reflexivity.
  - intros h rs. apply (proj1 (proj2 (invalid_upload_is_not_staged world_ok))). reflexivity.
  - apply (proj2 (proj2 (invalid_upload_is_not_staged world_ok))
             [upload "clip.mp3"] TYPHOON_ISAN_WHISPER initial).
    constructor; [reflexivity | constructor].
Defined.

(** The batch endpoint loads the model for a batch whose only upload is
    invalid: the build operation is called and the cache gets an entry,
    although the upload is recorded as a validation failure. *)
Lemma batch_loads_model_for_invalid_upload :
  let r := transcribe_batch world_ok [upload "clip.mp3"] TYPHOON_ISAN_WHISPER initial in
  is_wav (upload "clip.mp3") = false ∧
  count is_pipeline (trace initial) = 0 ∧
  count is_pipeline (trace r.2) = 1 ∧
  is_Some (loaded_models r.2 !! TYPHOON_ISAN_WHISPER) ∧
  ∃ rep, r.1 = Ok rep ∧ results rep = [invalid_entry (upload "clip.mp3")].
Proof.
  cbv zeta. split_and!; [done | done | by vm_compute | vm_compute; by eexists |].
  eexists. split; [vm_compute; reflexivity | reflexivity].
Qed.

(** C1, at an input where it fails.  For the upload [clip.mp3] and an empty
    cache, the single-file endpoint answers 400 without calling the build
    operation, also when that operation would raise.  The batch endpoint
    calls [get_or_load_model] before it looks at any name: when the build
    raises, the batch of that one upload fails with status 500 and no
    validation failure is reported; when the build succeeds, the upload is
    reported as a validation failure, but the model was built and
    cached. *)
Theorem batch_loads_model_before_validation :
  let file := upload "clip.mp3" in
  let single := transcribe_audio world_load_fails file TYPHOON_ISAN_WHISPER initial in
  let batch := transcribe_batch world_load_fails [file] TYPHOON_ISAN_WHISPER initial in
  let loaded := transcribe_batch world_ok [file] TYPHOON_ISAN_WHISPER initial in
  is_wav file = false ∧
  single = (Raise (HTTPException 400
                     "Only WAV files are supported. Please upload a .wav file."), initial) ∧
  batch.1 = Raise (HTTPException 500 "Failed to load model: out of memory") ∧
  count is_pipeline (trace batch.2) = 1 ∧
  (∃ rep, loaded.1 = Ok rep ∧ results rep = [invalid_entry file]) ∧
  count is_pipeline (trace loaded.2) = 1 ∧
  is_Some (loaded_models loaded.2 !! TYPHOON_ISAN_WHISPER).
Proof.
  cbv zeta. split_and!; try (by vm_compute).
  - eexists. split; [vm_compute; reflexivity | reflexivity].
  - vm_compute. by eexists.
Qed.


(** ** Reports of the batch endpoint *)

Lemma concat_singletons {A B} (P : A → B → Prop) (Q : A → list B → Prop) xs gs :
  (∀ x g, Q x g → ∃ e, g = [e] ∧ P x e) →
  Forall2 Q xs gs → Forall2 P xs (List.concat gs).
Proof.
  intros HQ. induction 1 as [|x g xs gs Hx _ IH]; cbn; [constructor|].
  destruct (HQ x g Hx) as (e & -> & He). cbn. by constructor.
Qed.

Section Reports.
Context (W : World).

(** Apart from a failure of [os.unlink], the report has exactly one entry
    per upload, in the order of the uploads and tagged with their names;
    its [total] and [status] do not depend on the outcomes. *)
Lemma batch_report_one_entry_per_upload files m s h s1 :
  unlink_succeeds W →
  get_or_load_model W m s = (Ok h, s1) →
  ∃ rep s2,
    transcribe_batch W files m s = (Ok rep, s2) ∧
    Forall2 entry_of files (results rep) ∧
    total rep = List.length files ∧
    report_status rep = "completed".
Proof.
  intros Hunlink Hload.
  destruct (transcribe_batch_report W files m s h s1 (item_summary W m) Hload
              (batch_item_summary W h m)) as (s2 & gs & Hrun & Hgs).
  eexists _, s2. split; [exact Hrun|]. cbn. split; [|done].
  eapply concat_singletons; [|exact Hgs].
  intros file g ((_ & Hentries & _) & Hone & _).
  destruct (Hone Hunlink) as (e & ->). exists e. split; [done|].
  exact (Forall_inv Hentries).
Qed.

(** On the path on which staging succeeds and the engine answers [v], both
    endpoints report the text extracted from [v]. *)
Lemma endpoints_report_text v text file m s h s1 content :
  extract_text W v = Py.Str text →
  is_wav file = true → read file = Ok content →
  staging_succeeds W → engine_answers W v →
  get_or_load_model W m s = (Ok h, s1) →
  (∃ s2, transcribe_audio W file m s = (Ok (response m text), s2)) ∧
  (∀ before after, ∃ rep s2,
     transcribe_batch W (before ++ file :: after) m s = (Ok rep, s2) ∧
     In (success_entry (filename file) (Py.Str text) m) (results rep)).
Proof.
  intros Htext Hwav Hread Hst Hv Hload. split.
  - destruct (transcribe_audio_answer W file m s h s1 content v
                Hwav Hread Hst Hv Hload) as (s2 & Hrun).
    exists s2. rewrite Hrun, Htext. done.
  - intros before after.
    destruct (transcribe_batch_report W (before ++ file :: after) m s h s1
                (item_summary W m) Hload (batch_item_summary W h m))
      as (s2 & gs & Hrun & Hgs).
    eexists _, s2. split; [exact Hrun|]. cbn.
    apply Forall2_app_inv_l in Hgs as (gs1 & gs2 & _ & Hgs2 & ->).
    apply Forall2_cons_inv_l in Hgs2 as (g & gs3 & (_ & _ & Hhead) & _ & ->).
    specialize (Hhead content v Hwav Hread Hst Hv). rewrite Htext in Hhead.
    rewrite concat_app. apply in_or_app. right. cbn. apply in_or_app. left.
    destruct g as [|e g]; [done|]. injection Hhead as ->. by left.
Qed.

End Reports.





(** C6, at an input where it fails.  When [os.unlink] raises after a
    successful transcription, the report of a batch of one upload has two
    entries for that upload, the success and then a failure, while [total]
    is 1. *)
Theorem batch_report_two_entries_when_unlink_fails :
  ∃ rep s',
    transcribe_batch world_unlink_fails [upload "a.wav"] TYPHOON_ISAN_WHISPER initial
      = (Ok rep, s') ∧
    results rep
      = [success_entry "a.wav" (Py.Str "sawasdee") TYPHOON_ISAN_WHISPER;
         error_entry "a.wav" "[Errno 13] Permission denied"] ∧
    total rep = 1 ∧
    report_status rep = "completed".
Proof.
  eexists _, _. split; [vm_compute; reflexivity|].
  split; [reflexivity|]. split; reflexivity.
Qed.

(** C2, at an input where it fails.  When the engine raises on a staged
    file, the batch endpoint records the failure and never calls
    [os.unlink]: the temporary file is still on storage after the request.
    The single-file endpoint, in the same world, unlinks it once. *)
Theorem batch_leaks_staged_file_when_engine_fails :
  let batch :=
    transcribe_batch world_engine_fails [upload "a.wav"] TYPHOON_ISAN_WHISPER initial in
  let single :=
    transcribe_audio world_engine_fails (upload "a.wav") TYPHOON_ISAN_WHISPER initial in
  (∃ rep, batch.1 = Ok rep ∧
          results rep = [error_entry "a.wav" "could not decode audio"]) ∧
  In (FileWrite 3 true) (trace batch.2) ∧
  count (is_unlink 3) (trace batch.2) = 0 ∧
  storage batch.2 !! 3 = Some [] ∧
  single.1 = Raise (HTTPException 500 "Failed to transcribe audio: could not decode audio") ∧
  In (FileWrite 3 true) (trace single.2) ∧
  count (is_unlink 3) (trace single.2) = 1 ∧
  storage single.2 !! 3 = None.
Proof.
  cbv zeta. split_and!; try (by vm_compute).
  - eexists. split; [vm_compute; reflexivity | reflexivity].
  - vm_compute. tauto.
  - vm_compute. tauto.
Qed.

(** ** Normalization of the engine's result *)

(** C7.  [extract_text] is total on the three shapes of an engine result.
    A dict whose [text] item is the string [text] and the bare string
    [text] both give the transcription text [text]; any other value gives
    its [str] conversion; in each case the text is a string, accepted as
    the text of a response.  On the path on which staging succeeds, an
    engine that answers with either shape makes both endpoints report
    [text]. *)
Theorem normalization_accepts_three_shapes (W : World) (text : string) :
  (∀ d, d !! "text" = Some (Py.Str text) →
        extract_text W (Py.Dict d) = Py.Str text ∧
        checked_text W (extract_text W (Py.Dict d)) = Ok text) ∧
  (extract_text W (Py.Str text) = Py.Str text ∧
   checked_text W (extract_text W (Py.Str text)) = Ok text) ∧
  (∀ tag, extract_text W (Py.Object tag) = Py.Str (str W (Py.Object tag)) ∧
          checked_text W (extract_text W (Py.Object tag)) = Ok (str W (Py.Object tag))) ∧
  (∀ v file m s h s1 content,
     v = Py.Str text ∨ (∃ d, v = Py.Dict d ∧ d !! "text" = Some (Py.Str text)) →
     is_wav file = true → read file = Ok content →
     staging_succeeds W → engine_answers W v →
     get_or_load_model W m s = (Ok h, s1) →
     (∃ s2, transcribe_audio W file m s = (Ok (response m text), s2)) ∧
     (∀ before after, ∃ rep s2,
        transcribe_batch W (before ++ file :: after) m s = (Ok rep, s2) ∧
        In (success_entry (filename file) (Py.Str text) m) (results rep))).
Proof.
  assert (∀ d, d !! "text" = Some (Py.Str text) →
               extract_text W (Py.Dict d) = Py.Str text) as Hdict.
  { intros d Hd. cbn. unfold Py.dict_get. by rewrite Hd. }
  split; [|split; [|split]].
  - intros d Hd. by rewrite (Hdict d Hd).
  - done.
  - done.
  - intros v file m s h s1 content Hv. apply endpoints_report_text.
    destruct Hv as [->|(d & -> & Hd)]; [done | by apply Hdict].
Qed.

Lemma normalization_accepts_three_shapes_witness :
  (extract_text world_ok (Py.Dict {[ "text" := Py.Str "sawasdee" ]}) = Py.Str "sawasdee" ∧
   checked_text world_ok (extract_text world_ok (Py.Dict {[ "text" := Py.Str "sawasdee" ]}))
     = Ok "sawasdee") ∧
  (∃ s2, transcribe_audio world_ok (upload "a.wav") TYPHOON_ISAN_WHISPER initial
           = (Ok (response TYPHOON_ISAN_WHISPER "sawasdee"), s2)) ∧
  (∃ s2, transcribe_audio (world_answering (Py.Str "sawasdee")) (upload "a.wav")
           TYPHOON_ISAN_WHISPER initial
           = (Ok (response TYPHOON_ISAN_WHISPER "sawasdee"), s2)).
Proof.
  destruct (normalization_accepts_three_shapes world_ok "sawasdee")
    as (Hdict & _ & _ & Hrecord).
  destruct (normalization_accepts_three_shapes
              (world_answering (Py.Str "sawasdee")) "sawasdee")
    as (_ & _ & _ & Hbare).
  split; [exact (Hdict {[ "text" := Py.Str "sawasdee" ]} eq_refl)|].
  split.
  - exact (proj1 (Hrecord (Py.Dict {[ "text" := Py.Str "sawasdee" ]}) (upload "a.wav")
                    TYPHOON_ISAN_WHISPER initial _ _ []
                    (or_intror (ex_intro _ {[ "text" := Py.Str "sawasdee" ]}
                                  (conj eq_refl eq_refl)))
                    eq_refl eq_refl
                    (conj (λ _, eq_refl) (conj (λ _ _ _, eq_refl) (λ _ _, eq_refl)))
                    (λ _ _ _ _, eq_refl) eq_refl)).
  - exact (proj1 (Hbare (Py.Str "sawasdee") (upload "a.wav")
                    TYPHOON_ISAN_WHISPER initial _ _ []
                    (or_introl eq_refl)
                    eq_refl eq_refl
                    (conj (λ _, eq_refl) (conj (λ _ _ _, eq_refl) (λ _ _, eq_refl)))
                    (λ _ _ _ _, eq_refl) eq_refl)).
Defined.

(** C10.  For a dict without a [text] item the transcription text is the
    empty string, not the [str] conversion of the dict, and it is accepted
    as the text of a response.  On the path on which staging succeeds,
    an engine that answers with such a dict makes the single-file endpoint
    return a success response with empty text and makes the batch endpoint
    record a success entry with empty text for the upload. *)
Theorem missing_text_item_gives_empty_text (W : World) (d : gmap string Py.value) :
  d !! "text" = None →
  extract_text W (Py.Dict d) = Py.Str "" ∧
  checked_text W (extract_text W (Py.Dict d)) = Ok "" ∧
  (∀ file m s h s1 content,
     is_wav file = true → read file = Ok content →
     staging_succeeds W → engine_answers W (Py.Dict d) →
     get_or_load_model W m s = (Ok h, s1) →
     (∃ s2, transcribe_audio W file m s = (Ok (response m ""), s2)) ∧
     (∀ before after, ∃ rep s2,
        transcribe_batch W (before ++ file :: after) m s = (Ok rep, s2) ∧
        In (success_entry (filename file) (Py.Str "") m) (results rep))).
Proof.
  intros Hd.
  assert (extract_text W (Py.Dict d) = Py.Str "") as Hempty.
  { cbn. unfold Py.dict_get. by rewrite Hd. }
  split_and!; [done | by rewrite Hempty |].
  intros file m s h s1 content. by apply endpoints_report_text.
Qed.

Lemma missing_text_item_gives_empty_text_witness :
  extract_text (world_answering (Py.Dict {[ "chunks" := Py.Object 0 ]}))
    (Py.Dict {[ "chunks" := Py.Object 0 ]}) = Py.Str "" ∧
  (∃ s2, transcribe_audio (world_answering (Py.Dict {[ "chunks" := Py.Object 0 ]}))
           (upload "a.wav") MONSOON_WHISPER_MEDIUM initial
         = (Ok (response MONSOON_WHISPER_MEDIUM ""), s2)) ∧
  (∃ rep s2,
     transcribe_batch (world_answering (Py.Dict {[ "chunks" := Py.Object 0 ]}))
       [upload "a.wav"] MONSOON_WHISPER_MEDIUM initial = (Ok rep, s2) ∧
     In (success_entry "a.wav" (Py.Str "") MONSOON_WHISPER_MEDIUM) (results rep)).
Proof.
  pose proof (missing_text_item_gives_empty_text
                (world_answering (Py.Dict {[ "chunks" := Py.Object 0 ]}))
                {[ "chunks" := Py.Object 0 ]} eq_refl) as (H1 & _ & H3).
  split; [exact H1|].
  destruct (H3 (upload "a.wav") MONSOON_WHISPER_MEDIUM initial _ _ []
              eq_refl eq_refl
              (conj (λ _, eq_refl) (conj (λ _ _ _, eq_refl) (λ _ _, eq_refl)))
              (λ _ _ _ _, eq_refl) eq_refl) as (Hsingle & Hbatch).
  split; [exact Hsingle|]. exact (Hbatch [] []).
Defined.

(** * Further properties of the code *)

(** ** The extension check *)

Lemma endswith_unfold (s suffix : string) :
  Py.endswith s suffix
  = if String.eqb s suffix then true
    else match s with
         | EmptyString => false
         | String _ s' => Py.endswith s' suffix
         end.
Proof. by destruct s. Qed.

Lemma endswith_app (p suffix : string) : Py.endswith (p ++ suffix)%string suffix = true.
Proof.
  induction p as [|c p IH]; rewrite endswith_unfold.
  - cbn. by rewrite String.eqb_refl.
  - change (String c p ++ suffix)%string with (String c (p ++ suffix)%string).
    by destruct (String.eqb _ _).
Qed.

Lemma endswith_inv (s suffix : string) :
  Py.endswith s suffix = true → ∃ p, s = (p ++ suffix)%string.
Proof.
  induction s as [|c s IH]; rewrite endswith_unfold.
  - destruct suffix; [by exists ""|done].
  - destruct (String.eqb (String c s) suffix) eqn:Heq.
    + apply String.eqb_eq in Heq. by exists "".
    + intros H. destruct (IH H) as (p & ->). by exists (String c p).
Qed.

Lemma lower_app (a b : string) : Py.lower (a ++ b)%string = (Py.lower a ++ Py.lower b)%string.
Proof.
  induction a as [|c a IH]; [done|].
  change (Py.lower (String c a ++ b)%string)
    with (String (Py.lower_ascii c) (Py.lower (a ++ b)%string)).
  by rewrite IH.
Qed.

Lemma lower_split (n a b : string) :
  Py.lower n = (a ++ b)%string →
  ∃ n1 n2, n = (n1 ++ n2)%string ∧ Py.lower n1 = a ∧ Py.lower n2 = b.
Proof.
  revert n. induction a as [|c a IH]; intros n.
  - intros H. by exists "", n.
  - change (String c a ++ b)%string with (String c (a ++ b)%string).
    destruct n as [|d n]; cbn [Py.lower]; [done|]. intros [= Hc H].
    destruct (IH n H) as (n1 & n2 & -> & <- & <-).
    exists (String d n1), n2. cbn [Py.lower]. by rewrite Hc.
Qed.

(** X1.  The extension check accepts exactly the names that end in
    [.wav] written in any mix of upper and lower case: a name is accepted
    if and only if it is a stem (possibly empty) followed by four
    characters whose lower-case form is [.wav]. *)
Theorem is_wav_iff (file : UploadFile) :
  is_wav file = true ↔
  ∃ stem ext, filename file = (stem ++ ext)%string ∧ Py.lower ext = ".wav".
Proof.
  unfold is_wav. split.
  - intros H. apply endswith_inv in H as (p & H).
    apply lower_split in H as (stem & ext & ? & _ & ?). by exists stem, ext.
  - intros (stem & ext & -> & Hext). rewrite lower_app, Hext. apply endswith_app.
Qed.

(** ** The single-file endpoint, continued *)

Ltac enter_audio Hwav Hload :=
  unfold transcribe_audio; rewrite Hwav; cbn [negb]; unfold bind at 1;
  rewrite Hload; run.

(** X2.  Once the model is obtained, whenever the single-file endpoint
    got as far as writing the upload to a temporary file, it calls
    [os.unlink] on that file exactly once, whatever happens afterwards
    (closing, inference or building the response may fail); and when that
    call succeeds the file is no longer on storage at the end of the
    request. *)
Theorem transcribe_audio_unlinks_written_file (W : World) (file : UploadFile)
    (m : ASRModel) (s : State) (h : Handle) (s1 : State) :
  is_wav file = true →
  get_or_load_model W m s = (Ok h, s1) →
  ∃ evs,
    trace (transcribe_audio W file m s).2 = evs ++ trace s1 ∧
    ∀ p, In (FileWrite p true) evs →
         count (is_unlink p) evs = 1 ∧
         (In (Unlink p true) evs → storage (transcribe_audio W file m s).2 !! p = None).
Proof.
  intros Hwav Hload.
  destruct (transcribe_audio W file m s) as [res s2] eqn:Hrun. cbn [fst snd].
  revert Hrun. enter_audio Hwav Hload.
  destruct (read file) as [content|e]; cbn.
  2:{ intros [= <- <-]. eexists [_]. split; [done|]. intros p H.
      repeat destruct H as [H|H]; done. }
  destruct (tempfile_outcome W _) as [[]|e]; cbn.
  2:{ intros [= <- <-]. eexists [_; _]. split; [done|]. intros p H.
      repeat destruct H as [H|H]; done. }
  destruct (write_outcome W _ _ _) as [[]|e]; cbn.
  2:{ destruct (close_outcome W _ _) as [[]|e']; cbn;
        (intros [= <- <-]; eexists [_; _; _; _]; split; [done|]; intros p H;
         repeat destruct H as [H|H]; done). }
  destruct (close_outcome W _ _) as [[]|e]; cbn.
  2:{ rewrite lookup_insert_eq; cbn.
      destruct (unlink_outcome W _ _) as [[]|?]; cbn;
        (intros [= <- <-]; eexists [_; _; _; _; _; _]; split; [done|]; intros p H;
         repeat destruct H as [H|H]; try done; injection H as <-;
         split; [rewrite !count_cons; cbn; by rewrite Nat.eqb_refl|];
         intros H'; repeat destruct H' as [H'|H']; try done;
         unfold set_storage; cbn; apply lookup_delete_eq). }
  destruct (model_outcome W _ _ _ _) as [v|e]; cbn.
  1: destruct (checked_text W (extract_text W v)); cbn.
  all: rewrite lookup_insert_eq; cbn.
  all: destruct (unlink_outcome W _ _) as [[]|?]; cbn.
  all: (intros [= <- <-]; eexists [_; _; _; _; _; _; _]; split; [done|]; intros p H;
         repeat destruct H as [H|H]; try done; injection H as <-;
         split; [rewrite !count_cons; cbn; by rewrite Nat.eqb_refl|];
         intros H'; repeat destruct H' as [H'|H']; try done;
         unfold set_storage; cbn; apply lookup_delete_eq).
Qed.

Lemma transcribe_audio_unlinks_written_file_witness :
  ∃ evs,
    trace (transcribe_audio world_engine_fails (upload "a.wav")
             TYPHOON_ISAN_WHISPER initial).2
      = evs ++ trace (get_or_load_model world_engine_fails TYPHOON_ISAN_WHISPER initial).2 ∧
    ∀ p, In (FileWrite p true) evs →
         count (is_unlink p) evs = 1 ∧
         (In (Unlink p true) evs →
          storage (transcribe_audio world_engine_fails (upload "a.wav")
                     TYPHOON_ISAN_WHISPER initial).2 !! p = None).
Proof.
  exact (transcribe_audio_unlinks_written_file world_engine_fails (upload "a.wav")
           TYPHOON_ISAN_WHISPER initial
           {| handle_id := 1; handle_args := load_args false TYPHOON_ISAN_WHISPER |}
           (get_or_load_model world_engine_fails TYPHOON_ISAN_WHISPER initial).2
           eq_refl eq_refl).
Defined.

(** X3.  When writing the upload to the temporary file raises, the
    [finally] clause of the single-file endpoint reads [temp_file_path]
    before it was ever assigned: the request ends with [UnboundLocalError]
    instead of the HTTP error, [os.unlink] is not called and the empty
    temporary file stays on storage. *)
Theorem transcribe_audio_write_failure_leaks (W : World) (file : UploadFile)
    (m : ASRModel) (s : State) (h : Handle) (s1 : State) (content : bytes)
    (msg : string) :
  let p := S (List.length (trace s1)) in
  let r := transcribe_audio W file m s in
  is_wav file = true →
  get_or_load_model W m s = (Ok h, s1) →
  read file = Ok content →
  tempfile_outcome W p = Ok () →
  write_outcome W (S p) p content = Raise msg →
  r.1 = Raise (UnboundLocalError "temp_file_path") ∧
  storage r.2 !! p = Some [] ∧
  count (is_unlink p) (trace r.2) = count (is_unlink p) (trace s1).
Proof.
  intros p r Hwav Hload Hread Htmp Hwrite. subst r.
  destruct (transcribe_audio W file m s) as [res s2] eqn:Hrun. cbn [fst snd].
  revert Hrun. subst p. enter_audio Hwav Hload.
  rewrite Hread. cbn. rewrite Htmp. cbn. rewrite Hwrite. cbn.
  destruct (close_outcome W _ _) as [[]|e']; cbn;
    (intros [= <- <-]; split_and!;
     [done | apply lookup_insert_eq | cbn; by rewrite !count_cons]).
Qed.

Lemma transcribe_audio_write_failure_leaks_witness :
  let r := transcribe_audio world_write_fails (upload "a.wav") TYPHOON_ISAN_WHISPER initial in
  r.1 = Raise (UnboundLocalError "temp_file_path") ∧
  storage r.2 !! 3 = Some [] ∧
  count (is_unlink 3) (trace r.2) = 0.
Proof.
  exact (transcribe_audio_write_failure_leaks world_write_fails (upload "a.wav")
           TYPHOON_ISAN_WHISPER initial
           {| handle_id := 1; handle_args := load_args false TYPHOON_ISAN_WHISPER |}
           (get_or_load_model world_write_fails TYPHOON_ISAN_WHISPER initial).2
           [] "[Errno 28] No space left on device"
           eq_refl eq_refl eq_refl eq_refl eq_refl).
Defined.

Lemma bind_run {E Σ A B} (m : M E Σ A) (k : A → M E Σ B) (s : Σ) :
  bind m k s = match m s with (Ok a, s1) => k a s1 | (Raise e, s1) => (Raise e, s1) end.
Proof. done. Qed.

Lemma get_or_load_model_outcomes_aux W m s :
  (∃ h s1, get_or_load_model W m s = (Ok h, s1) ∧ loaded_models s1 !! m = Some h ∧ storage s1 = storage s) ∨
  (∃ msg s1, get_or_load_model W m s
             = (Raise (HTTPException 500 ("Failed to load model: " ++ msg)%string), s1) ∧
             loaded_models s !! m = None ∧ loaded_models s1 = loaded_models s ∧ storage s1 = storage s).
Proof.
  destruct (loaded_models s !! m) as [h|] eqn:Hm.
  - left. exists h, s. by rewrite (get_or_load_model_cached W m s h Hm).
  - rewrite (get_or_load_model_miss W m s Hm). cbv zeta.
    destruct (pipeline_outcome W _ _) as [[]|msg].
    + left. eexists _, _. split; [done|]. cbn. split; [apply lookup_insert_eq|done].
    + right. by eexists _, _.
Qed.

(** Only HTTPException 500 with load prefix *)
(** X4.  A request to the single-file endpoint ends in one of five ways:
    a success response for the requested model, status 400 for a name
    that is not a WAV name, status 500 with the detail of a failed load,
    status 500 with detail [Failed to transcribe audio: ...], or the
    [UnboundLocalError] of the [finally] clause.  In particular it never
    raises [KeyError] and never returns a response of another model. *)
Theorem transcribe_audio_outcomes (W : World) (file : UploadFile) (m : ASRModel) (s : State) :
  audio_outcome m (transcribe_audio W file m s).1.
Proof.
  destruct (is_wav file) eqn:Hwav.
  2:{ rewrite (transcribe_audio_invalid W file m s Hwav). constructor. }
  destruct (get_or_load_model_outcomes_aux W m s)
    as [(h & s1 & Hload & _)|(msg & s1 & Hload & _)].
  2:{ rewrite (transcribe_audio_load_fails W file m s _ s1 Hwav Hload). constructor. }
  enter_audio Hwav Hload.
  destruct (read file) as [content|e]; cbn; [|constructor].
  destruct (tempfile_outcome W _) as [[]|e]; cbn; [|constructor].
  destruct (write_outcome W _ _ _) as [[]|e]; cbn.
  2:{ destruct (close_outcome W _ _) as [[]|e']; cbn; constructor. }
  destruct (close_outcome W _ _) as [[]|e]; cbn.
  2:{ rewrite lookup_insert_eq; cbn.
      destruct (unlink_outcome W _ _) as [[]|?]; cbn; constructor. }
  destruct (model_outcome W _ _ _ _) as [v|e]; cbn.
  1: destruct (checked_text W (extract_text W v)); cbn.
  all: rewrite lookup_insert_eq; cbn.
  all: destruct (unlink_outcome W _ _) as [[]|?]; cbn; constructor.
Qed.

(** X5.  What [os.unlink] does never changes the answer of the
    single-file endpoint: in two worlds that differ only in the outcome of
    [os.unlink], the same request from the same state gives the same
    response or the same error. *)
Theorem unlink_failure_never_changes_the_response (W W' : World) (file : UploadFile)
    (m : ASRModel) (s : State) :
  agree_up_to_unlink W W' →
  (transcribe_audio W file m s).1 = (transcribe_audio W' file m s).1.
Proof.
  intros (Hcuda & Hpipe & Hmodel & Hstr & Htmp & Hwrite & Hclose & Hresp).
  assert (∀ v, checked_text W (extract_text W v) = checked_text W' (extract_text W' v)) as Htext.
  { intros v. unfold checked_text, extract_text. rewrite Hstr, Hresp. done. }
  assert (get_or_load_model W m s = get_or_load_model W' m s) as Hsame.
  { destruct (loaded_models s !! m) as [h|] eqn:Hm.
    - by rewrite !(get_or_load_model_cached _ m s h Hm).
    - rewrite !(get_or_load_model_miss _ m s Hm). cbv zeta.
      unfold load_cuda. by rewrite Hcuda, Hpipe. }
  destruct (is_wav file) eqn:Hwav.
  2:{ by rewrite !(transcribe_audio_invalid _ file m s Hwav). }
  destruct (get_or_load_model W' m s) as [[h|e] s1] eqn:Hload'.
  2:{ by rewrite (transcribe_audio_load_fails W file m s _ s1 Hwav Hsame),
                 (transcribe_audio_load_fails W' file m s _ s1 Hwav Hload'). }
  unfold transcribe_audio; rewrite Hwav; cbn [negb]. rewrite !bind_run.
  rewrite Hsame, Hload'. run.
  rewrite Htmp, Hwrite, Hclose, Hmodel.
  destruct (read file) as [content|e]; cbn; [|done].
  destruct (tempfile_outcome W' _) as [[]|e]; cbn; [|done].
  destruct (write_outcome W' _ _ _) as [[]|e]; cbn.
  2:{ destruct (close_outcome W' _ _) as [[]|e']; cbn; done. }
  destruct (close_outcome W' _ _) as [[]|e]; cbn.
  2:{ rewrite !lookup_insert_eq; cbn.
      destruct (unlink_outcome W _ _) as [[]|?], (unlink_outcome W' _ _) as [[]|?]; cbn; done. }
  destruct (model_outcome W' _ _ _ _) as [v|e]; cbn.
  1: rewrite Htext; destruct (checked_text W' (extract_text W' v)); cbn.
  all: rewrite !lookup_insert_eq; cbn.
  all: destruct (unlink_outcome W _ _) as [[]|?], (unlink_outcome W' _ _) as [[]|?]; cbn; done.
Qed.

Lemma unlink_failure_never_changes_the_response_witness :
  (transcribe_audio world_ok (upload "a.wav") TYPHOON_ISAN_WHISPER initial).1
  = (transcribe_audio world_unlink_fails (upload "a.wav") TYPHOON_ISAN_WHISPER initial).1.
Proof.
  apply (unlink_failure_never_changes_the_response world_ok world_unlink_fails).
  by repeat split.
Defined.

(** X6.  When creating, writing and closing temporary files and
    [os.unlink] all succeed, the single-file endpoint leaves no temporary
    file behind, whatever the upload, the model load and the engine do:
    every file on storage after the request was there before it. *)
Theorem transcribe_audio_leaves_no_file (W : World) (file : UploadFile)
    (m : ASRModel) (s : State) :
  staging_succeeds W → unlink_succeeds W →
  storage (transcribe_audio W file m s).2 ⊆ storage s.
Proof.
  intros (Htmp & Hwrite & Hclose) Hunlink.
  destruct (is_wav file) eqn:Hwav.
  2:{ by rewrite (transcribe_audio_invalid W file m s Hwav). }
  destruct (get_or_load_model_outcomes_aux W m s)
    as [(h & s1 & Hload & _ & Hst)|(msg & s1 & Hload & _ & _ & Hst)].
  2:{ rewrite (transcribe_audio_load_fails W file m s _ s1 Hwav Hload). cbn. by rewrite Hst. }
  rewrite <-Hst. enter_audio Hwav Hload.
  destruct (read file) as [content|e]; cbn; [|done].
  rewrite Htmp. cbn. rewrite Hwrite. cbn. rewrite Hclose. cbn.
  destruct (model_outcome W _ _ _ _) as [v|e]; cbn.
  1: destruct (checked_text W (extract_text W v)); cbn.
  all: rewrite lookup_insert_eq; cbn; rewrite Hunlink; cbn.
  all: unfold set_storage; cbn; rewrite !delete_insert_eq; apply delete_subseteq.
Qed.

Lemma transcribe_audio_leaves_no_file_witness :
  storage (transcribe_audio world_engine_fails (upload "a.wav")
             TYPHOON_ISAN_WHISPER initial).2 ⊆ storage initial.
Proof.
  apply (transcribe_audio_leaves_no_file world_engine_fails).
  - by repeat split.
  - by intros ??.
Defined.

(** ** The cache, continued *)

(** After the model is obtained, the endpoints are quiet. *)
Lemma transcribe_audio_after_load W file m s :
  is_wav file = true →
  quiet (get_or_load_model W m s).2 (transcribe_audio W file m s).2.
Proof.
  intros Hwav. unfold transcribe_audio. rewrite Hwav. cbn [negb]. unfold bind at 1.
  destruct (get_or_load_model W m s) as [[h|e] s1]; cbn [fst snd]; [|reflexivity].
  lazymatch goal with
  | |- quiet _ (?f _).2 => enough (stable quiet f) as Hf by apply Hf
  end.
  unfold set_temp_file, set_temp_file_path. quiet_auto.
Qed.

Lemma transcribe_batch_after_load W files m s :
  quiet (get_or_load_model W m s).2 (transcribe_batch W files m s).2.
Proof.
  unfold transcribe_batch. unfold bind at 1.
  destruct (get_or_load_model W m s) as [[h|e] s1]; cbn [fst snd]; [|reflexivity].
  lazymatch goal with
  | |- quiet _ (?f _).2 => enough (stable quiet f) as Hf by apply Hf
  end.
  quiet_auto.
Qed.

Global Instance only_touches_preorder m : PreOrder (only_touches m).
Proof.
  split.
  - by intros s m' _.
  - intros s1 s2 s3 H12 H23 m' Hne. by rewrite (H23 m' Hne), (H12 m' Hne).
Qed.

Lemma quiet_only_touches m s s' : quiet s s' → only_touches m s s'.
Proof. intros [Hc _] m' _. by rewrite Hc. Qed.

Lemma get_or_load_model_only_touches W m s :
  only_touches m s (get_or_load_model W m s).2 ∧
  (count is_pipeline (trace (get_or_load_model W m s).2)
    ≤ S (count is_pipeline (trace s)))%nat.
Proof.
  destruct (loaded_models s !! m) as [h|] eqn:Hm.
  - rewrite (get_or_load_model_cached W m s h Hm). split; [done | cbn; lia].
  - rewrite (get_or_load_model_miss W m s Hm). cbv zeta.
    destruct (pipeline_outcome W _ _) as [[]|msg]; cbn; rewrite !count_cons; cbn.
    + split; [|lia]. intros m' Hne. cbn. by rewrite lookup_insert_ne.
    + split; [done | lia].
Qed.

Lemma quiet_no_pipeline s s' :
  quiet s s' → count is_pipeline (trace s') = count is_pipeline (trace s).
Proof. intros [_ (evs & -> & Hn)]. rewrite count_app. lia. Qed.

(** X7.  A call of [get_or_load_model] and a request to either endpoint
    for the model [m] leave every cache entry other than that of [m] as it
    was, and call the engine's build operation at most once. *)
Theorem request_touches_only_its_model (W : World) (m : ASRModel) (s s' : State) :
  (s' = (get_or_load_model W m s).2 ∨
   (∃ file, s' = (transcribe_audio W file m s).2) ∨
   (∃ files, s' = (transcribe_batch W files m s).2)) →
  only_touches m s s' ∧
  (count is_pipeline (trace s') ≤ S (count is_pipeline (trace s)))%nat.
Proof.
  destruct (get_or_load_model_only_touches W m s) as [Hload Hcount].
  intros [->|[(file & ->)|(files & ->)]]; [done | |].
  - destruct (is_wav file) eqn:Hwav.
    + pose proof (transcribe_audio_after_load W file m s Hwav) as Hq. split.
      * etrans; [exact Hload | by apply quiet_only_touches].
      * rewrite (quiet_no_pipeline _ _ Hq). exact Hcount.
    + rewrite (transcribe_audio_invalid W file m s Hwav). split; [done | cbn; lia].
  - pose proof (transcribe_batch_after_load W files m s) as Hq. split.
    + etrans; [exact Hload | by apply quiet_only_touches].
    + rewrite (quiet_no_pipeline _ _ Hq). exact Hcount.
Qed.

Lemma request_touches_only_its_model_witness :
  only_touches TYPHOON_ISAN_WHISPER initial
    (transcribe_batch world_ok [upload "a.wav"; upload "b.wav"]
       TYPHOON_ISAN_WHISPER initial).2 ∧
  (count is_pipeline
     (trace (transcribe_batch world_ok [upload "a.wav"; upload "b.wav"]
               TYPHOON_ISAN_WHISPER initial).2)
   ≤ S (count is_pipeline (trace initial)))%nat.
Proof.
  apply (request_touches_only_its_model world_ok).
  right. right. by eexists.
Defined.

(** X8.  A failed load is not remembered: when the build operation
    raised for an identifier without entry and succeeds at the next call of
    [get_or_load_model] for it, that call builds again, returns the handle
    and stores it; the build operation was then called twice in all. *)
Theorem failed_load_is_retried (W : World) (m : ASRModel) (s : State) (msg : string) :
  let s1 := (get_or_load_model W m s).2 in
  loaded_models s !! m = None →
  pipeline_outcome W (load_time s) (load_args (load_cuda W s) m) = Raise msg →
  pipeline_outcome W (load_time s1) (load_args (load_cuda W s1) m) = Ok () →
  ∃ h s2,
    get_or_load_model W m s1 = (Ok h, s2) ∧
    loaded_models s2 !! m = Some h ∧
    count is_pipeline (trace s2) = 2 + count is_pipeline (trace s).
Proof.
  intros s1 Hm Hfail Hok.
  assert (loaded_models s1 !! m = None ∧
          count is_pipeline (trace s1) = 1 + count is_pipeline (trace s)) as [Hm1 Hc1].
  { subst s1. rewrite (get_or_load_model_miss W m s Hm). cbv zeta. rewrite Hfail.
    cbn. by rewrite !count_cons. }
  rewrite (get_or_load_model_miss W m s1 Hm1). cbv zeta. rewrite Hok.
  eexists _, _. split; [done|]. cbn. split; [apply lookup_insert_eq|].
  rewrite !count_cons, Hc1. done.
Qed.

Lemma failed_load_is_retried_witness :
  ∃ h s2,
    get_or_load_model world_load_fails_once MONSOON_WHISPER_MEDIUM
      (get_or_load_model world_load_fails_once MONSOON_WHISPER_MEDIUM initial).2
      = (Ok h, s2) ∧
    loaded_models s2 !! MONSOON_WHISPER_MEDIUM = Some h ∧
    count is_pipeline (trace s2) = 2 + count is_pipeline (trace initial).
Proof.
  exact (failed_load_is_retried world_load_fails_once MONSOON_WHISPER_MEDIUM initial
           "connection timed out" eq_refl eq_refl eq_refl).
Defined.

Global Instance keeps_handles_configured_preorder : PreOrder keeps_handles_configured.
Proof. split; unfold keeps_handles_configured; [intros s | intros s1 s2 s3]; tauto. Qed.

Lemma quiet_keeps_handles_configured s s' : quiet s s' → keeps_handles_configured s s'.
Proof.
  intros [Hc (evs & Ht & _)] Hinv m h Hm. rewrite Hc in Hm.
  destruct (Hinv m h Hm) as [Hargs Hid]. split; [done|].
  rewrite Ht, length_app. lia.
Qed.

Lemma get_or_load_model_keeps_handles_configured W m :
  stable keeps_handles_configured (get_or_load_model W m).
Proof.
  intros s Hinv. destruct (loaded_models s !! m) as [h|] eqn:Hm.
  - by rewrite (get_or_load_model_cached W m s h Hm).
  - rewrite (get_or_load_model_miss W m s Hm). cbv zeta.
    destruct (pipeline_outcome W _ _); intros m' h' Hm'; cbn in *.
    + destruct (decide (m = m')) as [<-|Hne].
      * rewrite lookup_insert_eq in Hm'. injection Hm' as <-. cbn.
        split; [by eexists | unfold load_time; lia].
      * rewrite lookup_insert_ne in Hm' by done.
        destruct (Hinv m' h' Hm') as [? ?]. split; [done | lia].
    + destruct (Hinv m' h' Hm') as [? ?]. split; [done | lia].
Qed.

(** X9.  In every reachable state, a cached handle was built for its own
    identifier: with the speech-recognition task, the repository of the
    identifier, chunks of 30 seconds and timestamp prediction, and either
    device 0 with half precision or device -1 with single precision; and
    the handles cached for two different identifiers are different. *)
Theorem cached_handles_are_configured (W : World) (s : State) :
  reachable W s →
  ∀ m h, loaded_models s !! m = Some h →
    task (handle_args h) = "automatic-speech-recognition" ∧
    model (handle_args h) = repo (MODEL_CONFIG m) ∧
    chunk_length_s (handle_args h) = 30%Z ∧
    return_timestamps (handle_args h) = true ∧
    (device (handle_args h) = 0%Z ∧ torch_dtype (handle_args h) = float16 ∨
     device (handle_args h) = (-1)%Z ∧ torch_dtype (handle_args h) = float32) ∧
    ∀ m' h', loaded_models s !! m' = Some h' → m ≠ m' → h ≠ h'.
Proof.
  intros Hs.
  assert (handles_configured s) as Hinv.
  { by apply (stable_steps W keeps_handles_configured
                quiet_keeps_handles_configured
                (get_or_load_model_keeps_handles_configured W) initial s Hs). }
  intros m h Hm. destruct (Hinv m h Hm) as [(cuda & Hargs) _]. rewrite Hargs.
  split_and!; try done.
  - destruct cuda; [left | right]; done.
  - intros m' h' Hm' Hne ->. destruct (Hinv m' h' Hm') as [(cuda' & Hargs') _].
    rewrite Hargs' in Hargs. apply Hne.
    apply (f_equal model) in Hargs. cbn in Hargs. by destruct m, m'.
Qed.

Lemma cached_handles_are_configured_witness :
  let s := (get_or_load_model world_cuda TYPHOON_ISAN_WHISPER initial).2 in
  let h := {| handle_id := 1; handle_args := load_args true TYPHOON_ISAN_WHISPER |} in
  task (handle_args h) = "automatic-speech-recognition" ∧
  model (handle_args h) = repo (MODEL_CONFIG TYPHOON_ISAN_WHISPER) ∧
  chunk_length_s (handle_args h) = 30%Z ∧
  return_timestamps (handle_args h) = true ∧
  (device (handle_args h) = 0%Z ∧ torch_dtype (handle_args h) = float16 ∨
   device (handle_args h) = (-1)%Z ∧ torch_dtype (handle_args h) = float32) ∧
  ∀ m' h', loaded_models s !! m' = Some h' → TYPHOON_ISAN_WHISPER ≠ m' → h ≠ h'.
Proof.
  apply (cached_handles_are_configured world_cuda
           (get_or_load_model world_cuda TYPHOON_ISAN_WHISPER initial).2).
  - apply rtc_once, step_get_or_load_model.
  - reflexivity.
Defined.

(** X10.  [get_or_load_model] ends in one of two ways: it returns a handle,
    which is then the cache entry of the identifier, or it raises status
    500 with detail [Failed to load model: ...], and then the identifier
    had no entry and the cache is unchanged.  The final lookup
    [loaded_models[model_name]] never raises [KeyError], and storage is
    not touched. *)
Theorem get_or_load_model_outcomes (W : World) (m : ASRModel) (s : State) :
  (∃ h s1,
     get_or_load_model W m s = (Ok h, s1) ∧
     loaded_models s1 !! m = Some h ∧ storage s1 = storage s) ∨
  (∃ msg s1,
     get_or_load_model W m s
       = (Raise (HTTPException 500 ("Failed to load model: " ++ msg)%string), s1) ∧
     loaded_models s !! m = None ∧
     loaded_models s1 = loaded_models s ∧ storage s1 = storage s).
Proof. apply get_or_load_model_outcomes_aux. Qed.

(** X11.  The batch endpoint ends in one of two ways.  Either the model
    was obtained and it returns a report whose [total] is the number of
    uploads, whose [model] is the requested identifier and whose [status]
    is [completed]; or the load failed and it raises that error with
    status 500 before any upload is looked at: the state is the one the
    failed load left, so nothing was read or staged. *)
Theorem transcribe_batch_outcomes (W : World) (files : list UploadFile)
    (m : ASRModel) (s : State) :
  (∃ h s1 rep s2,
     get_or_load_model W m s = (Ok h, s1) ∧
     transcribe_batch W files m s = (Ok rep, s2) ∧
     total rep = List.length files ∧
     report_model rep = value m ∧
     report_status rep = "completed") ∨
  (∃ msg s1,
     get_or_load_model W m s
       = (Raise (HTTPException 500 ("Failed to load model: " ++ msg)%string), s1) ∧
     transcribe_batch W files m s
       = (Raise (HTTPException 500 ("Failed to load model: " ++ msg)%string), s1)).
Proof.
  destruct (get_or_load_model_outcomes_aux W m s)
    as [(h & s1 & Hload & _)|(msg & s1 & Hload & _)].
  - left.
    destruct (transcribe_batch_report W files m s h s1 (item_summary W m) Hload
                (batch_item_summary W h m)) as (s2 & gs & Hrun & _).
    by eexists h, s1, _, s2.
  - right. exists msg, s1. split; [done|].
    by apply transcribe_batch_load_fails.
Qed.

(** X12.  Over any sequence of requests and calls of [get_or_load_model],
    a cache entry is never removed or replaced: the identifier keeps the
    very same handle. *)
Theorem cache_entries_are_kept (W : World) (s s' : State) (m : ASRModel) (h : Handle) :
  rtc (step W) s s' →
  loaded_models s !! m = Some h →
  loaded_models s' !! m = Some h.
Proof.
  intros Hsteps Hm. apply steps_cache_grows in Hsteps.
  by eapply lookup_weaken.
Qed.

Lemma cache_entries_are_kept_witness :
  let s := (get_or_load_model world_ok TYPHOON_ISAN_WHISPER initial).2 in
  let s' := (transcribe_batch world_engine_fails [upload "a.wav"]
               MONSOON_WHISPER_MEDIUM s).2 in
  loaded_models s' !! TYPHOON_ISAN_WHISPER
  = Some {| handle_id := 1; handle_args := load_args false TYPHOON_ISAN_WHISPER |}.
Proof.
  cbv zeta.
  apply (cache_entries_are_kept world_engine_fails
           (get_or_load_model world_ok TYPHOON_ISAN_WHISPER initial).2).
  - apply rtc_once, step_transcribe_batch.
  - reflexivity.
Defined.

Lemma batch_report_one_entry_per_upload_witness :
  ∃ rep s2,
    transcribe_batch world_engine_fails
      [upload "a.wav"; upload "clip.mp3"; broken_upload "c.wav"]
      TYPHOON_ISAN_WHISPER initial = (Ok rep, s2) ∧
    Forall2 entry_of [upload "a.wav"; upload "clip.mp3"; broken_upload "c.wav"]
      (results rep) ∧
    total rep = 3 ∧
    report_status rep = "completed".
Proof.
  exact (batch_report_one_entry_per_upload world_engine_fails
           [upload "a.wav"; upload "clip.mp3"; broken_upload "c.wav"]
           TYPHOON_ISAN_WHISPER initial
           {| handle_id := 1; handle_args := load_args false TYPHOON_ISAN_WHISPER |}
           (get_or_load_model world_engine_fails TYPHOON_ISAN_WHISPER initial).2
           (λ _ _, eq_refl) eq_refl).
Defined.

(** X14.  [list_models] changes nothing and lists the identifiers in the
    order of their definition, each with the data of the registry.  After
    a call of [get_or_load_model] for [m], the entry of [m] is marked as
    loaded exactly when that call returned a handle, and the entries of
    the other identifiers are what they were before the call. *)
Theorem list_models_reflects_cache (W : World) (m : ASRModel) (s : State) :
  let r := get_or_load_model W m s in
  list_models s = (Ok (map (model_info s) ASRModel_members), s) ∧
  list_models r.2 = (Ok (map (model_info r.2) ASRModel_members), r.2) ∧
  info_loaded (model_info r.2 m) = is_ok r.1 ∧
  ∀ m', m' ≠ m → model_info r.2 m' = model_info s m'.
Proof.
  intros r. split; [done|]. split; [done|]. split.
  - unfold model_info. cbn [info_loaded]. subst r.
    destruct (loaded_models s !! m) as [h|] eqn:Hm.
    + rewrite (get_or_load_model_cached W m s h Hm). cbn. rewrite Hm.
      by apply bool_decide_eq_true_2.
    + rewrite (get_or_load_model_miss W m s Hm). cbv zeta.
      destruct (pipeline_outcome W _ _); cbn.
      * rewrite lookup_insert_eq. by apply bool_decide_eq_true_2.
      * rewrite Hm. apply bool_decide_eq_false_2. by intros [? ?].
  - intros m' Hne. unfold model_info.
    enough (loaded_models r.2 !! m' = loaded_models s !! m') as -> by done.
    subst r. destruct (loaded_models s !! m) as [h|] eqn:Hm.
    + by rewrite (get_or_load_model_cached W m s h Hm).
    + rewrite (get_or_load_model_miss W m s Hm). cbv zeta.
      destruct (pipeline_outcome W _ _); cbn; [|done].
      by rewrite lookup_insert_ne.
Qed.

(** ** The batch endpoint, continued *)

Global Instance no_new_files_preorder : PreOrder no_new_files.
Proof.
  split.
  - intros s. unfold no_new_files. reflexivity.
  - intros s1 s2 s3 H12 H23. unfold no_new_files in *. by etrans.
Qed.

Lemma batch_item_no_new_files W h m file :
  staging_succeeds W → unlink_succeeds W → engine_never_raises W →
  stable (on_globals no_new_files) (batch_item W h m file).
Proof.
  intros (Htmp & Hwrite & Hclose) Hunlink Hengine [s rs].
  unfold on_globals, no_new_files. run.
  destruct (is_wav file); cbn; [|done].
  destruct (read file) as [content|e]; cbn; [|done].
  rewrite Htmp. cbn. rewrite Hwrite. cbn. rewrite Hclose. cbn.
  match goal with
  | |- context [model_outcome W ?t ?h ?p ?c] =>
      pose proof (Hengine t h p c) as Hok;
      destruct (model_outcome W t h p c) as [v|e]; [|done]
  end.
  cbn. rewrite Hunlink. cbn. unfold set_storage. cbn.
  rewrite !delete_insert_eq. apply delete_subseteq.
Qed.

(** X15.  When creating, writing and closing temporary files and
    [os.unlink] all succeed and the engine returns on every file, the batch
    endpoint leaves no temporary file behind, whatever the uploads are and
    whether or not the model loads: every file on storage after the request
    was there before it. *)
Theorem transcribe_batch_leaves_no_file (W : World) (files : list UploadFile)
    (m : ASRModel) (s : State) :
  staging_succeeds W → unlink_succeeds W → engine_never_raises W →
  storage (transcribe_batch W files m s).2 ⊆ storage s.
Proof.
  intros Hst Hunlink Hengine.
  destruct (get_or_load_model_outcomes_aux W m s)
    as [(h & s1 & Hload & _ & Hs1)|(msg & s1 & Hload & _ & _ & Hs1)].
  2:{ rewrite (transcribe_batch_load_fails W files m s _ s1 Hload). cbn.
      by rewrite Hs1. }
  rewrite <-Hs1. unfold transcribe_batch. unfold bind at 1. rewrite Hload.
  lazymatch goal with
  | |- storage (?f _).2 ⊆ _ => enough (stable no_new_files f) as Hf by apply Hf
  end.
  apply stable_with_locals.
  apply stable_bind; [apply _ | | intros _].
  - apply stable_for_each; [apply _|]. intros file.
    by apply batch_item_no_new_files.
  - apply stable_bind; [apply _ | apply stable_gets, _ | intros rs].
    apply stable_ret, _.
Qed.

Lemma transcribe_batch_leaves_no_file_witness :
  storage (transcribe_batch world_ok
             [upload "a.wav"; upload "clip.mp3"; broken_upload "c.wav"]
             TYPHOON_ISAN_WHISPER initial).2 ⊆ storage initial.
Proof.
  apply (transcribe_batch_leaves_no_file world_ok).
  - by repeat split.
  - by intros ??.
  - by intros ????.
Defined.
